(** * SerperSearchProvider: a shallow embedding of
      src/lib/tools/search/providers/serper.ts

    The provider fans a query out to up to four Serper endpoints (web,
    video, image, news), normalises every reply and merges the replies into
    one [SearchResults] object that the four handlers mutate in place.

    The embedding keeps the structure of the TypeScript:
    - JSON payloads are values of [JSON]; property access, [||], [??],
      [slice] and [map] follow JavaScript on those values;
    - a [try]/[catch] block is a computation in the state-and-exception
      monad [Eff];
    - an [async] handler is cut at its two [await]s into three run-to-completion
      segments; the event loop resumes the handlers one segment at a time in
      the order given by a schedule (the order in which the network answers). *)

From Stdlib Require Import String ZArith List Bool Lia.
Import ListNotations.

Set Warnings "-register-all".

Local Open Scope string_scope.
Local Open Scope list_scope.

Infix "+++" := String.append (right associativity, at level 60).

(** ** JavaScript values *)

(** What [response.json()] can resolve to.  The code never computes with a
    number, it only tests whether one is falsy, so a number is an integer
    here and [0] is the falsy one. *)
Inductive JSON : Type :=
| JNull
| JBool (b : bool)
| JNum (n : Z)
| JStr (s : string)
| JArr (items : list JSON)
| JObj (fields : list (string * JSON)).

(** Values the handlers hold: [undefined], a parsed JSON value, or a method
    inherited from a prototype ([String.prototype.link] is the one the code
    can reach). *)
Inductive Value : Type :=
| VUndefined
| VJson (j : JSON)
| VBuiltin (name : string).

Definition VStr (s : string) : Value := VJson (JStr s).

Inductive Exn : Type :=
| Error (message : string)
| TypeError (message : string)
| SyntaxError (message : string).

(** ** Exceptions in pure code *)

Definition Exc (A : Type) : Type := Exn + A.

Definition ret {A} (a : A) : Exc A := inr a.
Definition throw {A} (e : Exn) : Exc A := inl e.
Definition bind {A B} (c : Exc A) (k : A -> Exc B) : Exc B :=
  match c with
  | inl e => inl e
  | inr a => k a
  end.

Declare Scope exc_scope.
Delimit Scope exc_scope with exc.
Notation "x <- c ;; k" := (bind c (fun x => k))
  (at level 100, c at next level, right associativity) : exc_scope.

(** [v.k] on a parsed JSON value, for the property names the handlers read
    (organic, videos, images, news, title, link, snippet, imageUrl,
    thumbnailUrl, duration, source, channel, date): none of them lives on
    [Object.prototype], [Array.prototype], [Number.prototype] or
    [Boolean.prototype], and of all of them only [link] lives on
    [String.prototype]. *)
Fixpoint assoc (k : string) (fields : list (string * JSON)) : option JSON :=
  match fields with
  | [] => None
  | (k', v) :: rest => if String.eqb k k' then Some v else assoc k rest
  end.

Definition getProp (v : JSON) (k : string) : Exc Value :=
  match v with
  | JNull => throw (TypeError ("Cannot read properties of null (reading '" +++ k +++ "')"))
  | JObj fields =>
      match assoc k fields with
      | Some x => ret (VJson x)
      | None => ret VUndefined
      end
  | JStr _ => if String.eqb k "link" then ret (VBuiltin "String.prototype.link") else ret VUndefined
  | _ => ret VUndefined
  end.

(** ToBoolean. *)
Definition truthy (v : Value) : bool :=
  match v with
  | VUndefined => false
  | VJson JNull => false
  | VJson (JBool b) => b
  | VJson (JNum n) => negb (n =? 0)%Z
  | VJson (JStr s) => negb (String.eqb s EmptyString)
  | VJson (JArr _) => true
  | VJson (JObj _) => true
  | VBuiltin _ => true
  end.

(** [a || b] *)
Definition or_else (a b : Value) : Value := if truthy a then a else b.

Definition nullish (v : Value) : bool :=
  match v with
  | VUndefined => true
  | VJson JNull => true
  | _ => false
  end.

(** [a ?? b] *)
Definition coalesce (a b : Value) : Value := if nullish a then b else a.

(** [Array.prototype.slice(0, n)] for an integer [n]: a negative end counts
    from the end of the array. *)
Definition slice0 {A} (l : list A) (n : Z) : list A :=
  if (n <? 0)%Z
  then firstn (Z.to_nat (Z.max (Z.of_nat (length l) + n) 0)) l
  else firstn (Z.to_nat n) l.

(** [(v || []).slice(0, maxResults)] as the receiver of [.map]: the items
    [map] will visit.  A falsy [v] gives the empty array.  A truthy [v] that
    is no array throws a TypeError before the callback ever runs: a string
    slices to a string, which has no [map]; a number, a boolean, an object
    or a built-in has no callable [slice]. *)
Definition sliceItems (v : Value) (maxResults : Z) : Exc (list JSON) :=
  match or_else v (VJson (JArr [])) with
  | VJson (JArr l) => ret (slice0 l maxResults)
  | VJson (JStr _) => throw (TypeError "(intermediate value).slice(...).map is not a function")
  | _ => throw (TypeError "(intermediate value).slice is not a function")
  end.

(** [Array.prototype.map] with a callback that may throw; the callback gets
    the element and its index. *)
Fixpoint mapIndexFrom {A B} (f : A -> nat -> Exc B) (i : nat) (l : list A) : Exc (list B) :=
  match l with
  | [] => ret []
  | x :: rest =>
      (y <- f x i ;;
       ys <- mapIndexFrom f (S i) rest ;;
       ret (y :: ys))%exc
  end.

Definition mapIndex {A B} (f : A -> nat -> Exc B) (l : list A) : Exc (list B) :=
  mapIndexFrom f 0 l.

(** ** Result types

    The provider imports its result types from '@/lib/types', which is not
    among the sources.  The records below have the fields the specification
    lists in its data model, which are the fields of the object literals
    the handlers build.  A field holds whatever JavaScript value the
    handler puts there. *)

Module SearchResultItem.
(** Modelled from the spec: the element type of [SearchResults.results]
    (the specification's WebResultItem), declared in '@/lib/types'. *)
Record t : Type := mk { title : Value; url : Value; content : Value }.
End SearchResultItem.

Module SearchImageItem.
(** Modelled from the spec: [SearchImageItem] of '@/lib/types' (the
    specification's ImageResultItem). *)
Record t : Type := mk { title : Value; link : Value; thumbnailUrl : Value }.
End SearchImageItem.

Module SerperSearchResultItem.
(** Modelled from the spec: [SerperSearchResultItem] of '@/lib/types' (the
    specification's VideoResultItem). *)
Record t : Type := mk {
  title : Value;
  link : Value;
  snippet : Value;
  imageUrl : Value;
  duration : Value;
  source : Value;
  channel : Value;
  date : Value;
  position : nat
}.
End SerperSearchResultItem.

(** Modelled from the spec: [SearchResults] of '@/lib/types'. *)
Record SearchResults : Type := mkSearchResults {
  results : list SearchResultItem.t;
  images : list SearchImageItem.t;
  videos : list SerperSearchResultItem.t;
  query : string;
  number_of_results : nat
}.

(** ** The [map] callbacks *)

(** searchWeb, lines 141-145. *)
Definition webItem (result : JSON) (_ : nat) : Exc SearchResultItem.t :=
  (title <- getProp result "title" ;;
   link <- getProp result "link" ;;
   snippet <- getProp result "snippet" ;;
   ret (SearchResultItem.mk
          (or_else title (VStr "No title"))
          link
          (or_else snippet (VStr "No description available"))))%exc.

(** searchNews, lines 260-264. *)
Definition newsItem (result : JSON) (_ : nat) : Exc SearchResultItem.t :=
  (title <- getProp result "title" ;;
   link <- getProp result "link" ;;
   snippet <- getProp result "snippet" ;;
   ret (SearchResultItem.mk
          (or_else title (VStr "No title"))
          link
          (or_else snippet (VStr "No description available"))))%exc.

(** searchVideos, lines 177-188. *)
Definition videoItem (result : JSON) (index : nat) : Exc SerperSearchResultItem.t :=
  (title <- getProp result "title" ;;
   link <- getProp result "link" ;;
   snippet <- getProp result "snippet" ;;
   imageUrl <- getProp result "imageUrl" ;;
   duration <- getProp result "duration" ;;
   source <- getProp result "source" ;;
   channel <- getProp result "channel" ;;
   date <- getProp result "date" ;;
   ret (SerperSearchResultItem.mk
          (coalesce title (VStr "No title"))
          (coalesce link (VStr EmptyString))
          (coalesce snippet (VStr "No description available"))
          (coalesce imageUrl (VStr EmptyString))
          (coalesce duration (VStr EmptyString))
          (coalesce source (VStr EmptyString))
          (coalesce channel (VStr EmptyString))
          (coalesce date (VStr EmptyString))
          index))%exc.

(** searchImages, lines 221-226. *)
Definition imageItem (result : JSON) (_ : nat) : Exc SearchImageItem.t :=
  (title <- getProp result "title" ;;
   link <- getProp result "link" ;;
   thumbnailUrl <- getProp result "thumbnailUrl" ;;
   imageUrl <- getProp result "imageUrl" ;;
   ret (SearchImageItem.mk
          (or_else title (VStr "No title"))
          (or_else link (VStr EmptyString))
          (or_else (or_else thumbnailUrl imageUrl) (VStr EmptyString))))%exc.

(** ** Normalisation of one reply: the right-hand sides of the assignments *)

(** [(data.organic || []).slice(0, maxResults).map(...)], lines 139-145. *)
Definition webItems (data : JSON) (maxResults : Z) : Exc (list SearchResultItem.t) :=
  (organic <- getProp data "organic" ;;
   items <- sliceItems organic maxResults ;;
   mapIndex webItem items)%exc.

(** [(data.videos || []).slice(0, maxResults).map(...)], lines 176-189. *)
Definition videoItems (data : JSON) (maxResults : Z) : Exc (list SerperSearchResultItem.t) :=
  (vs <- getProp data "videos" ;;
   items <- sliceItems vs maxResults ;;
   mapIndex videoItem items)%exc.

(** [(data.images || []).slice(0, maxResults).map(...)], lines 220-227. *)
Definition imageItems (data : JSON) (maxResults : Z) : Exc (list SearchImageItem.t) :=
  (imgs <- getProp data "images" ;;
   items <- sliceItems imgs maxResults ;;
   mapIndex imageItem items)%exc.

(** [(data.news || []).slice(0, maxResults).map(...)], lines 258-264. *)
Definition newsItems (data : JSON) (maxResults : Z) : Exc (list SearchResultItem.t) :=
  (ns <- getProp data "news" ;;
   items <- sliceItems ns maxResults ;;
   mapIndex newsItem items)%exc.

(** ** The outside world: backend, console, event loop *)

Inductive Category : Type := web | video | image | news.

Definition Category_eqb (a b : Category) : bool :=
  match a, b with
  | web, web | video, video | image, image | news, news => true
  | _, _ => false
  end.

(** [contentTypes.includes(c)] *)
Definition includes (contentTypes : list Category) (c : Category) : bool :=
  existsb (Category_eqb c) contentTypes.

(** One outbound POST: the URL, the X-API-KEY header and the two fields of
    the JSON body. *)
Record Request : Type := mkRequest {
  endpoint : string;
  x_api_key : option string;
  q : string;
  num : Z
}.

(** What [await response.json()] does: reject, or resolve to parsed JSON. *)
Inductive JsonOutcome : Type :=
| JsonRejects (e : Exn)
| JsonResolves (data : JSON).

Record Response : Type := mkResponse {
  ok : bool;
  statusText : string;
  json : JsonOutcome
}.

(** What [await fetch(...)] does: reject (no connection), or resolve to a
    response. *)
Inductive FetchOutcome : Type :=
| FetchRejects (e : Exn)
| FetchResolves (response : Response).

Definition Backend : Type := Request -> FetchOutcome.

(** A [console.error] call: a message, or a message and the caught error. *)
Inductive LogEntry : Type :=
| Log (message : string)
| LogError (message : string) (error : Exn).

(** The state the handlers share: the [results] object of [search], the
    console and the requests sent so far. *)
Record World : Type := mkWorld {
  obj : SearchResults;
  console : list LogEntry;
  network : list Request
}.

(** ** State and exceptions: the monad of a [try] block *)

Definition Eff (A : Type) : Type := World -> Exc A * World.

Definition eret {A} (a : A) : Eff A := fun w => (inr a, w).
Definition ethrow {A} (e : Exn) : Eff A := fun w => (inl e, w).
Definition ebind {A B} (c : Eff A) (k : A -> Eff B) : Eff B :=
  fun w =>
    match c w with
    | (inl e, w') => (inl e, w')
    | (inr a, w') => k a w'
    end.
Definition lift {A} (c : Exc A) : Eff A := fun w => (c, w).

(** [try { body } catch (error) { handler error }] *)
Definition try_catch {A} (body : Eff A) (handler : Exn -> Eff A) : Eff A :=
  fun w =>
    match body w with
    | (inl e, w') => handler e w'
    | (inr a, w') => (inr a, w')
    end.

Declare Scope eff_scope.
Delimit Scope eff_scope with eff.
Notation "x <- c ;; k" := (ebind c (fun x => k))
  (at level 100, c at next level, right associativity) : eff_scope.
Notation "c ;; k" := (ebind c (fun _ => k))
  (at level 100, right associativity) : eff_scope.

Definition console_error (entry : LogEntry) : Eff unit :=
  fun w => (inr tt, mkWorld (obj w) (console w ++ [entry]) (network w)).

Definition modify_obj (f : SearchResults -> SearchResults) : Eff unit :=
  fun w => (inr tt, mkWorld (f (obj w)) (console w) (network w)).

Definition read_obj : Eff SearchResults :=
  fun w => (inr (obj w), w).

(** [results.results = l], [results.images = l], [results.videos = l],
    [results.number_of_results = n] *)
Definition set_results (l : list SearchResultItem.t) (r : SearchResults) : SearchResults :=
  mkSearchResults l (images r) (videos r) (query r) (number_of_results r).
Definition set_images (l : list SearchImageItem.t) (r : SearchResults) : SearchResults :=
  mkSearchResults (results r) l (videos r) (query r) (number_of_results r).
Definition set_videos (l : list SerperSearchResultItem.t) (r : SearchResults) : SearchResults :=
  mkSearchResults (results r) (images r) l (query r) (number_of_results r).
Definition set_number_of_results (n : nat) (r : SearchResults) : SearchResults :=
  mkSearchResults (results r) (images r) (videos r) (query r) n.

(** Where an [async] handler stands: not called, suspended at
    [await fetch(...)] (with what the fetch will settle to), suspended at
    [await response.json()], returned, or rejected. *)
Inductive Pending : Type :=
| NotStarted
| AwaitFetch (o : FetchOutcome)
| AwaitJson (j : JsonOutcome)
| Settled
| Rejected (e : Exn).

(** Resuming after an [await]: the awaited promise's value, or its rejection
    thrown at the [await]. *)
Definition awaitedFetch (o : FetchOutcome) : Eff Response :=
  match o with
  | FetchRejects e => ethrow e
  | FetchResolves response => eret response
  end.

Definition awaitedJson (j : JsonOutcome) : Eff JSON :=
  match j with
  | JsonRejects e => ethrow e
  | JsonResolves data => eret data
  end.

(** ** SerperSearchProvider *)

Section SerperSearchProvider.

(** [this.apiKey], read from the environment by the constructor, and the
    backend the requests go to. *)
Variable apiKey : option string.
Variable backend : Backend.

(** [!this.apiKey]: undefined or the empty string. *)
Definition apiKeyMissing : bool :=
  match apiKey with
  | None => true
  | Some k => String.eqb k EmptyString
  end.

(** [fetch(url, { method: 'POST', headers, body })]: the request leaves at
    the call; the promise settles later. *)
Definition fetch (url : string) (query : string) (maxResults : Z) : Eff FetchOutcome :=
  fun w =>
    let request := mkRequest url apiKey query maxResults in
    (inr (backend request), mkWorld (obj w) (console w) (network w ++ [request])).

(** *** searchWeb, lines 115-149 *)

Definition searchWeb_catch (error : Exn) : Eff Pending :=
  (console_error (LogError "Serper web search error:" error) ;;
   eret Settled)%eff.

Definition searchWeb_call (query : string) (maxResults : Z) : Eff Pending :=
  try_catch
    (o <- fetch "https://google.serper.dev/search" query maxResults ;;
     eret (AwaitFetch o))%eff
    searchWeb_catch.

Definition searchWeb_response (o : FetchOutcome) : Eff Pending :=
  try_catch
    (response <- awaitedFetch o ;;
     if negb (ok response)
     then (console_error (Log ("Serper web search failed: " +++ statusText response)) ;;
           ethrow (Error "Search failed"))
     else eret (AwaitJson (json response)))%eff
    searchWeb_catch.

Definition searchWeb_json (maxResults : Z) (j : JsonOutcome) : Eff Pending :=
  try_catch
    (data <- awaitedJson j ;;
     items <- lift (webItems data maxResults) ;;
     modify_obj (set_results items) ;;
     eret Settled)%eff
    searchWeb_catch.

(** *** searchVideos, lines 151-194 *)

Definition searchVideos_catch (error : Exn) : Eff Pending :=
  (console_error (LogError "Serper video search error:" error) ;;
   modify_obj (set_videos []) ;;
   eret Settled)%eff.

Definition searchVideos_call (query : string) (maxResults : Z) : Eff Pending :=
  try_catch
    (o <- fetch "https://google.serper.dev/videos" query maxResults ;;
     eret (AwaitFetch o))%eff
    searchVideos_catch.

Definition searchVideos_response (o : FetchOutcome) : Eff Pending :=
  try_catch
    (response <- awaitedFetch o ;;
     if negb (ok response)
     then (console_error (Log ("Serper video search failed: " +++ statusText response)) ;;
           ethrow (Error "Search failed"))
     else eret (AwaitJson (json response)))%eff
    searchVideos_catch.

Definition searchVideos_json (maxResults : Z) (j : JsonOutcome) : Eff Pending :=
  try_catch
    (data <- awaitedJson j ;;
     items <- lift (videoItems data maxResults) ;;
     modify_obj (set_videos items) ;;
     eret Settled)%eff
    searchVideos_catch.

(** *** searchImages, lines 196-232 *)

Definition searchImages_catch (error : Exn) : Eff Pending :=
  (console_error (LogError "Serper image search error:" error) ;;
   modify_obj (set_images []) ;;
   eret Settled)%eff.

Definition searchImages_call (query : string) (maxResults : Z) : Eff Pending :=
  try_catch
    (o <- fetch "https://google.serper.dev/images" query maxResults ;;
     eret (AwaitFetch o))%eff
    searchImages_catch.

Definition searchImages_response (o : FetchOutcome) : Eff Pending :=
  try_catch
    (response <- awaitedFetch o ;;
     if negb (ok response)
     then (console_error (Log ("Serper image search failed: " +++ statusText response)) ;;
           ethrow (Error "Search failed"))
     else eret (AwaitJson (json response)))%eff
    searchImages_catch.

Definition searchImages_json (maxResults : Z) (j : JsonOutcome) : Eff Pending :=
  try_catch
    (data <- awaitedJson j ;;
     items <- lift (imageItems data maxResults) ;;
     modify_obj (set_images items) ;;
     eret Settled)%eff
    searchImages_catch.

(** *** searchNews, lines 234-271 *)

Definition searchNews_catch (error : Exn) : Eff Pending :=
  (console_error (LogError "Serper news search error:" error) ;;
   eret Settled)%eff.

Definition searchNews_call (query : string) (maxResults : Z) : Eff Pending :=
  try_catch
    (o <- fetch "https://google.serper.dev/news" query maxResults ;;
     eret (AwaitFetch o))%eff
    searchNews_catch.

(** A response that is not ok is logged and the handler returns: nothing
    is thrown here. *)
Definition searchNews_response (o : FetchOutcome) : Eff Pending :=
  try_catch
    (response <- awaitedFetch o ;;
     if negb (ok response)
     then (console_error (Log ("Serper news search failed: " +++ statusText response)) ;;
           eret Settled)
     else eret (AwaitJson (json response)))%eff
    searchNews_catch.

(** [results.results = [...results.results, ...newsResults]] reads the
    list as it is when this segment runs. *)
Definition searchNews_json (maxResults : Z) (j : JsonOutcome) : Eff Pending :=
  try_catch
    (data <- awaitedJson j ;;
     newsResults <- lift (newsItems data maxResults) ;;
     results_now <- read_obj ;;
     modify_obj (set_results (results results_now ++ newsResults)) ;;
     eret Settled)%eff
    searchNews_catch.

(** *** The handlers as a family *)

Definition handler_call (c : Category) : string -> Z -> Eff Pending :=
  match c with
  | web => searchWeb_call
  | video => searchVideos_call
  | image => searchImages_call
  | news => searchNews_call
  end.

Definition handler_response (c : Category) : FetchOutcome -> Eff Pending :=
  match c with
  | web => searchWeb_response
  | video => searchVideos_response
  | image => searchImages_response
  | news => searchNews_response
  end.

Definition handler_json (c : Category) : Z -> JsonOutcome -> Eff Pending :=
  match c with
  | web => searchWeb_json
  | video => searchVideos_json
  | image => searchImages_json
  | news => searchNews_json
  end.

(** The promise of an [async] function: what escapes the body rejects it. *)
Definition promise (r : Exc Pending) : Pending :=
  match r with
  | inl e => Rejected e
  | inr p => p
  end.

(** The handler of category [c] runs its next segment, up to its next
    [await] or its end.  A handler that was not called, has returned or
    has rejected has nothing to resume. *)
Definition resume (c : Category) (maxResults : Z) (p : Pending) (w : World) : Pending * World :=
  match p with
  | AwaitFetch o => let (r, w') := handler_response c o w in (promise r, w')
  | AwaitJson j => let (r, w') := handler_json c maxResults j w in (promise r, w')
  | _ => (p, w)
  end.

(** *** The event loop *)

(** The state of the four handlers. *)
Definition Tasks : Type := Category -> Pending.

Definition update (t : Tasks) (c : Category) (p : Pending) : Tasks :=
  fun c' => if Category_eqb c c' then p else t c'.

(** The network answers the handler of category [c]. *)
Definition deliver (maxResults : Z) (c : Category) (s : Tasks * World) : Tasks * World :=
  let (t, w) := s in
  let (p, w') := resume c maxResults (t c) w in
  (update t c p, w').

(** The answers arrive in the order of the schedule. *)
Definition run (maxResults : Z) (schedule : list Category) (s : Tasks * World) : Tasks * World :=
  fold_left (fun s c => deliver maxResults c s) schedule s.

(** Every request is answered in the end: what the schedule leaves
    unanswered is answered afterwards, in the order the handlers were
    called. *)
Definition remaining : list Category :=
  [web; web; video; video; image; image; news; news].

(** [if (contentTypes.includes(c)) promises.push(this.handler(...))]: the
    handler runs to its first [await] at the call. *)
Definition call_if (contentTypes : list Category) (c : Category)
           (query : string) (maxResults : Z) (s : Tasks * World) : Tasks * World :=
  if includes contentTypes c
  then
    let (t, w) := s in
    let (r, w') := handler_call c query maxResults w in
    (update t c (promise r), w')
  else s.

(** [Promise.all(promises)] *)
Inductive AllOutcome : Type :=
| AllResolved
| AllRejected (e : Exn)
| AllPending.

Definition promise_one (p : Pending) (rest : AllOutcome) : AllOutcome :=
  match p with
  | Rejected e => AllRejected e
  | AwaitFetch _ | AwaitJson _ =>
      match rest with
      | AllRejected e => AllRejected e
      | _ => AllPending
      end
  | NotStarted | Settled => rest
  end.

Definition promise_all (t : Tasks) : AllOutcome :=
  promise_one (t web) (promise_one (t video) (promise_one (t image) (promise_one (t news) AllResolved))).

(** *** search, lines 49-113 *)

Inductive SearchDepth : Type := basic | advanced.
Inductive SearchType : Type := general | optimized.
Record Options : Type := mkOptions {
  type_ : option SearchType;
  content_types : option (list Category)
}.

(** How the promise returned by [search] ends, and what the call did to
    the outside world. *)
Inductive Completion : Type :=
| Returns (r : SearchResults)
| Throws (e : Exn)
| NeverSettles.

Record Outcome : Type := mkOutcome {
  completion : Completion;
  logged : list LogEntry;
  requests : list Request
}.

(** Lines 74-86. *)
Definition searchQuery (query : string)
           (includeDomains excludeDomains : option (list string)) : string :=
  let searchQuery := query in
  let searchQuery :=
    match includeDomains with
    | Some ((_ :: _) as includeDomains) =>
        let siteFilters :=
          String.concat " OR " (map (fun domain => "site:" +++ domain) includeDomains) in
        query +++ " (" +++ siteFilters +++ ")"
    | _ => searchQuery
    end in
  match excludeDomains with
  | Some ((_ :: _) as excludeDomains) =>
      let excludeFilters :=
        String.concat " " (map (fun domain => "-site:" +++ domain) excludeDomains) in
      searchQuery +++ " " +++ excludeFilters
  | _ => searchQuery
  end.

(** [options?.content_types || ['web']]: an array, even an empty one, is
    truthy. *)
Definition contentTypesOf (options : option Options) : list Category :=
  match options with
  | Some o =>
      match content_types o with
      | Some l => l
      | None => [web]
      end
  | None => [web]
  end.

(** [maxResults: number = 10] *)
Definition maxResultsOrDefault (maxResults : option Z) : Z :=
  match maxResults with
  | Some n => n
  | None => 10%Z
  end.

Definition search (schedule : list Category)
           (query : string) (maxResults : option Z) (searchDepth : option SearchDepth)
           (includeDomains excludeDomains : option (list string))
           (options : option Options) : Outcome :=
  let maxResults := maxResultsOrDefault maxResults in
  if apiKeyMissing
  then mkOutcome (Throws (Error "Serper API key not configured")) [] []
  else
    let contentTypes := contentTypesOf options in
    let results_ := mkSearchResults [] [] [] query 0 in
    let searchQuery := searchQuery query includeDomains excludeDomains in
    let s := (fun _ => NotStarted, mkWorld results_ [] []) in
    let s := call_if contentTypes web searchQuery maxResults s in
    let s := call_if contentTypes video searchQuery maxResults s in
    let s := call_if contentTypes image searchQuery maxResults s in
    let s := call_if contentTypes news searchQuery maxResults s in
    let (t, w) := run maxResults (schedule ++ remaining) s in
    match promise_all t with
    | AllResolved =>
        let results_ := set_number_of_results (length (results (obj w))) (obj w) in
        mkOutcome (Returns results_) (console w) (network w)
    | AllRejected e => mkOutcome (Throws e) (console w) (network w)
    | AllPending => mkOutcome NeverSettles (console w) (network w)
    end.

End SerperSearchProvider.

(** ** What one run of the event loop does *)

(** The URL each handler posts to. *)
Definition endpoint_of (c : Category) : string :=
  match c with
  | web => "https://google.serper.dev/search"
  | video => "https://google.serper.dev/videos"
  | image => "https://google.serper.dev/images"
  | news => "https://google.serper.dev/news"
  end.

Definition is_inl {A B} (x : A + B) : bool :=
  match x with
  | inl _ => true
  | inr _ => false
  end.

Definition items_or_nil {A} (r : Exc (list A)) : list A :=
  match r with
  | inr l => l
  | inl _ => []
  end.

(** The body of a reply when the request went through: the fetch resolved,
    the status was a success and the body parsed. *)
Definition payload (o : FetchOutcome) : Exc JSON :=
  match o with
  | FetchRejects e => inl e
  | FetchResolves response =>
      if ok response
      then match json response with
           | JsonRejects e => inl e
           | JsonResolves data => inr data
           end
      else inl (Error "Search failed")
  end.

Section Run.

Variable apiKey : option string.
Variable backend : Backend.
(** The rewritten query, the result cap and the requested categories of
    one call of [search]. *)
Variable sq : string.
Variable mr : Z.
Variable cts : list Category.

Definition request_of (c : Category) : Request :=
  mkRequest (endpoint_of c) apiKey sq mr.

Definition reply (c : Category) : FetchOutcome := backend (request_of c).

Definition web_result : Exc (list SearchResultItem.t) :=
  bind (payload (reply web)) (fun data => webItems data mr).
Definition video_result : Exc (list SerperSearchResultItem.t) :=
  bind (payload (reply video)) (fun data => videoItems data mr).
Definition image_result : Exc (list SearchImageItem.t) :=
  bind (payload (reply image)) (fun data => imageItems data mr).
Definition news_result : Exc (list SearchResultItem.t) :=
  bind (payload (reply news)) (fun data => newsItems data mr).

(** The handler of [c] does not get to its assignment. *)
Definition failed (c : Category) : bool :=
  match c with
  | web => is_inl web_result
  | video => is_inl video_result
  | image => is_inl image_result
  | news => is_inl news_result
  end.

(** What a category adds to the answer: its items when it was requested
    and went through, nothing otherwise. *)
Definition contribution {A} (c : Category) (r : Exc (list A)) : list A :=
  if includes cts c then items_or_nil r else [].

(** The write the handler of [c] makes in its last segment. *)
Definition commit (c : Category) (r : SearchResults) : SearchResults :=
  match c with
  | web =>
      match web_result with
      | inr l => set_results l r
      | inl _ => r
      end
  | video => set_videos (items_or_nil video_result) r
  | image => set_images (items_or_nil image_result) r
  | news =>
      match news_result with
      | inr l => set_results (results r ++ l) r
      | inl _ => r
      end
  end.

Definition failed_message (c : Category) : string :=
  match c with
  | web => "Serper web search failed: "
  | video => "Serper video search failed: "
  | image => "Serper image search failed: "
  | news => "Serper news search failed: "
  end.

Definition error_message (c : Category) : string :=
  match c with
  | web => "Serper web search error:"
  | video => "Serper video search error:"
  | image => "Serper image search error:"
  | news => "Serper news search error:"
  end.

Definition items_error (c : Category) (data : JSON) : option Exn :=
  match c with
  | web => match webItems data mr with inl e => Some e | inr _ => None end
  | video => match videoItems data mr with inl e => Some e | inr _ => None end
  | image => match imageItems data mr with inl e => Some e | inr _ => None end
  | news => match newsItems data mr with inl e => Some e | inr _ => None end
  end.

(** The lines the handler of [c] writes to the console over its life. *)
Definition failure_log (c : Category) : list LogEntry :=
  match reply c with
  | FetchRejects e => [LogError (error_message c) e]
  | FetchResolves response =>
      if ok response
      then match json response with
           | JsonRejects e => [LogError (error_message c) e]
           | JsonResolves data =>
               match items_error c data with
               | Some e => [LogError (error_message c) e]
               | None => []
               end
           end
      else
        match c with
        | news => [Log (failed_message c +++ statusText response)]
        | _ => [Log (failed_message c +++ statusText response);
                LogError (error_message c) (Error "Search failed")]
        end
  end.

(** A handler's state agrees with the call: it was started only when its
    category was requested, and what it waits for is the backend's reply
    to its own request. *)
Definition st_ok (c : Category) (p : Pending) : Prop :=
  match p with
  | NotStarted => includes cts c = false
  | AwaitFetch o => includes cts c = true /\ o = reply c
  | AwaitJson j =>
      includes cts c = true /\
      exists response, reply c = FetchResolves response /\ ok response = true /\ json response = j
  | Settled => includes cts c = true
  | Rejected _ => False
  end.

Definition is_done (p : Pending) : bool :=
  match p with
  | NotStarted | Settled => true
  | _ => false
  end.

(** Segments left to run. *)
Definition rank (p : Pending) : nat :=
  match p with
  | AwaitFetch _ => 2
  | AwaitJson _ => 1
  | _ => 0
  end.

(** The shared list after the web and the news handler have or have not
    finished: a finished handler has made its write, and when both have
    finished the web handler's assignment came either before the news
    handler's append or after it. *)
Definition results_ok (web_done news_done : bool) (l : list SearchResultItem.t) : Prop :=
  let W := contribution web web_result in
  let N := contribution news news_result in
  match web_done, news_done with
  | false, false => l = []
  | true, false => l = W
  | false, true => l = N
  | true, true =>
      l = W ++ N \/ (includes cts web = true /\ failed web = false /\ l = W)
  end.

(** The invariant of the event loop. *)
Record Inv (query0 : string) (s : Tasks * World) : Prop := mkInv {
  inv_tasks : forall c, st_ok c (fst s c);
  inv_videos :
    videos (obj (snd s)) =
      if is_done (fst s video) then contribution video video_result else [];
  inv_images :
    images (obj (snd s)) =
      if is_done (fst s image) then contribution image image_result else [];
  inv_results :
    results_ok (is_done (fst s web)) (is_done (fst s news)) (results (obj (snd s)));
  inv_query : query (obj (snd s)) = query0;
  inv_network :
    network (snd s) = map request_of (filter (includes cts) [web; video; image; news]);
  inv_console :
    forall c, includes cts c = true -> is_done (fst s c) = true ->
              incl (failure_log c) (console (snd s));
  inv_console_only :
    forall entry, In entry (console (snd s)) ->
                  exists c, includes cts c = true /\ In entry (failure_log c)
}.

(** The state [search] is in when it reaches [await Promise.all]: the
    handlers of the requested categories have been called, in the order
    web, video, image, news, on the fresh [results] object. *)
Definition after_calls (query0 : string) : Tasks * World :=
  let s := (fun _ => NotStarted, mkWorld (mkSearchResults [] [] [] query0 0) [] []) in
  let s := call_if apiKey backend cts web sq mr s in
  let s := call_if apiKey backend cts video sq mr s in
  let s := call_if apiKey backend cts image sq mr s in
  call_if apiKey backend cts news sq mr s.

End Run.


(** ** Vocabulary of the statements *)

(** [sub] occurs in [s]. *)
Definition contains (s sub : string) : Prop :=
  exists before after, s = before +++ sub +++ after.

Definition category_name (c : Category) : string :=
  match c with
  | web => "web"
  | video => "video"
  | image => "image"
  | news => "news"
  end.

Definition log_message (entry : LogEntry) : string :=
  match entry with
  | Log message => message
  | LogError message _ => message
  end.

(** A console line that names the category it reports on. *)
Definition mentions (c : Category) (entry : LogEntry) : bool :=
  String.prefix ("Serper " +++ category_name c +++ " search ") (log_message entry).

(** ** Sample backends *)

Definition rawItem (title link snippet : string) : JSON :=
  JObj [("title", JStr title); ("link", JStr link); ("snippet", JStr snippet)].

Definition replyOk (data : JSON) : FetchOutcome :=
  FetchResolves (mkResponse true "OK" (JsonResolves data)).

(** Two organic items, one news item, three videos carrying upstream
    positions of their own, one image without a thumbnail. *)
Definition sample_backend : Backend :=
  fun request =>
    if String.eqb (endpoint request) "https://google.serper.dev/search" then
      replyOk (JObj [("organic", JArr [rawItem "w1" "https://w1" "first";
                                       rawItem "w2" "https://w2" "second"])])
    else if String.eqb (endpoint request) "https://google.serper.dev/news" then
      replyOk (JObj [("news", JArr [rawItem "n1" "https://n1" "headline"])])
    else if String.eqb (endpoint request) "https://google.serper.dev/videos" then
      replyOk (JObj [("videos", JArr [JObj [("title", JStr "v1"); ("position", JNum 7)];
                                      JObj [("title", JStr "v2"); ("position", JNum 7)];
                                      JObj [("title", JStr "v3"); ("position", JNum 1)]])])
    else
      replyOk (JObj [("images", JArr [JObj [("title", JStr "i1");
                                            ("imageUrl", JStr "https://i1/full.png")]])]).

(** The same, but the video endpoint answers 500 and the image endpoint
    answers with a body that is not JSON. *)
Definition failing_backend : Backend :=
  fun request =>
    if String.eqb (endpoint request) "https://google.serper.dev/videos" then
      FetchResolves (mkResponse false "Internal Server Error" (JsonRejects (SyntaxError "Unexpected token")))
    else if String.eqb (endpoint request) "https://google.serper.dev/images" then
      FetchResolves (mkResponse true "OK" (JsonRejects (SyntaxError "Unexpected token")))
    else sample_backend request.

Definition three_videos : JSON :=
  JObj [("videos", JArr [JObj [("title", JStr "v1"); ("position", JNum 7)];
                         JObj [("title", JStr "v2"); ("position", JNum 7)];
                         JObj [("title", JStr "v3"); ("position", JNum 1)]])].

Definition image_without_thumbnail : list (string * JSON) :=
  [("title", JStr "i1"); ("imageUrl", JStr "https://i1/full.png")].

Definition all_categories : option Options :=
  Some (mkOptions None (Some [web; video; image; news])).

Definition web_and_news : option Options :=
  Some (mkOptions None (Some [web; news])).

(** ** Vocabulary of the further properties *)

(** The field of the reply a category reads. *)
Definition category_key (c : Category) : string :=
  match c with
  | web => "organic"
  | video => "videos"
  | image => "images"
  | news => "news"
  end.

(** How many items the normalisation of category [c] returns. *)
Definition items_count (c : Category) (data : JSON) (maxResults : Z) : Exc nat :=
  match c with
  | web => bind (webItems data maxResults) (fun l => ret (length l))
  | video => bind (videoItems data maxResults) (fun l => ret (length l))
  | image => bind (imageItems data maxResults) (fun l => ret (length l))
  | news => bind (newsItems data maxResults) (fun l => ret (length l))
  end.

(** A field a handler can normalise: missing, falsy, or an array whose
    items within the cap are all different from [null]. *)
Definition field_ok (field : option JSON) (maxResults : Z) : Prop :=
  match field with
  | None => True
  | Some v =>
      truthy (VJson v) = false \/
      exists l, v = JArr l /\ ~ In JNull (slice0 l maxResults)
  end.

(** [v ?? fallback] for a field of an object. *)
Definition field_or (fields : list (string * JSON)) (k : string) (fallback : string) : Value :=
  match assoc k fields with
  | None | Some JNull => VStr fallback
  | Some v => VJson v
  end.

(** A callback that throws on [null] and on nothing else. *)
Definition throws_on_null_only {B} (f : JSON -> nat -> Exc B) : Prop :=
  forall x i, (exists y, f x i = inr y) <-> x <> JNull.

Definition three_video_items : list JSON :=
  [JObj [("title", JStr "v1"); ("position", JNum 7)];
   JObj [("title", JStr "v2"); ("position", JNum 7)];
   JObj [("title", JStr "v3"); ("position", JNum 1)]].

(** A video whose title is the empty string and whose link is [null]. *)
Definition video_with_empty_title : list (string * JSON) :=
  [("title", JStr EmptyString); ("link", JNull); ("duration", JNum 0)].

(** Every endpoint answers 503. *)
Definition unavailable_backend : Backend :=
  fun _ => FetchResolves (mkResponse false "Service Unavailable" (JsonResolves JNull)).

(** The sample backend with the news endpoint unreachable. *)
Definition news_down_backend : Backend :=
  fun request =>
    if String.eqb (endpoint request) "https://google.serper.dev/news" then
      FetchRejects (TypeError "fetch failed")
    else sample_backend request.

(** Once the news handler has finished and while the web handler has not,
    the list holds the news items; from the moment the web handler finishes
    it holds the web items. *)
Definition news_then_web (apiKey : option string) (backend : Backend) (sq : string)
           (mr : Z) (cts : list Category) (s : Tasks * World) : Prop :=
  is_done (fst s news) = true /\
  ((is_done (fst s web) = false /\
    results (obj (snd s)) = contribution cts news (news_result apiKey backend sq mr)) \/
   (is_done (fst s web) = true /\
    results (obj (snd s)) = contribution cts web (web_result apiKey backend sq mr))).

(** What a consumer of the answer can rely on, item by item. *)
Definition web_item_ok (item : SearchResultItem.t) : Prop :=
  truthy (SearchResultItem.title item) = true /\
  truthy (SearchResultItem.content item) = true.

Definition image_item_ok (item : SearchImageItem.t) : Prop :=
  truthy (SearchImageItem.title item) = true /\
  (truthy (SearchImageItem.link item) = true \/
   SearchImageItem.link item = VStr EmptyString) /\
  (truthy (SearchImageItem.thumbnailUrl item) = true \/
   SearchImageItem.thumbnailUrl item = VStr EmptyString).

Definition video_item_ok (item : SerperSearchResultItem.t) : Prop :=
  nullish (SerperSearchResultItem.title item) = false /\
  nullish (SerperSearchResultItem.link item) = false /\
  nullish (SerperSearchResultItem.snippet item) = false /\
  nullish (SerperSearchResultItem.imageUrl item) = false /\
  nullish (SerperSearchResultItem.duration item) = false /\
  nullish (SerperSearchResultItem.source item) = false /\
  nullish (SerperSearchResultItem.channel item) = false /\
  nullish (SerperSearchResultItem.date item) = false.

(** Two replies that are the same, or that both carry a status that is not
    a success, with the same status text, and differ in their bodies. *)
Definition same_up_to_failed_body (o1 o2 : FetchOutcome) : Prop :=
  o1 = o2 \/
  exists st j1 j2,
    o1 = FetchResolves (mkResponse false st j1) /\
    o2 = FetchResolves (mkResponse false st j2).

Definition pending_sim (p1 p2 : Pending) : Prop :=
  p1 = p2 \/
  exists o1 o2,
    p1 = AwaitFetch o1 /\ p2 = AwaitFetch o2 /\ same_up_to_failed_body o1 o2.

Definition state_sim (s1 s2 : Tasks * World) : Prop :=
  snd s1 = snd s2 /\ forall x, pending_sim (fst s1 x) (fst s2 x).

(** The unavailable backend with another body. *)
Definition unavailable_backend_with_body : Backend :=
  fun _ => FetchResolves (mkResponse false "Service Unavailable"
                            (JsonResolves (JObj [("organic", JArr [rawItem "w" "l" "s"])]))).


(** * Proofs *)

(** ** Lists, slices and the [map] callbacks *)

Section MapIndex.

Context {A B : Type}.
Variable f : A -> nat -> Exc B.

Lemma mapIndexFrom_length (l : list A) :
  forall i ys, mapIndexFrom f i l = inr ys -> length ys = length l.
Proof.
  induction l as [ | x rest IH]; simpl; intros i ys H.
  - inversion H. reflexivity.
  - destruct (f x i) as [e | y]; simpl in H; [discriminate | ].
    destruct (mapIndexFrom f (S i) rest) as [e | ys'] eqn:E; simpl in H; [discriminate | ].
    inversion H; subst. simpl. f_equal. eauto.
Qed.

(** The [n]-th output is the callback's value on the [n]-th input and on
    the index [i + n]. *)
Lemma mapIndexFrom_nth (l : list A) :
  forall i ys n y,
    mapIndexFrom f i l = inr ys ->
    nth_error ys n = Some y ->
    exists x, nth_error l n = Some x /\ f x (i + n) = inr y.
Proof.
  induction l as [ | x rest IH]; simpl; intros i ys n y H Hn.
  - inversion H; subst. destruct n; discriminate.
  - destruct (f x i) as [e | y0] eqn:Ef; simpl in H; [discriminate | ].
    destruct (mapIndexFrom f (S i) rest) as [e | ys'] eqn:E; simpl in H; [discriminate | ].
    inversion H; subst.
    destruct n as [ | n]; simpl in Hn.
    + inversion Hn; subst. exists x. rewrite Nat.add_0_r. auto.
    + destruct (IH _ _ _ _ E Hn) as (x' & Hx & Hf).
      exists x'. split; [assumption | ].
      now replace (i + S n) with (S i + n) by lia.
Qed.

End MapIndex.

Lemma slice0_length {A} (l : list A) (n : Z) :
  (0 <= n)%Z -> (Z.of_nat (length (slice0 l n)) <= n)%Z.
Proof.
  intros Hn. unfold slice0.
  destruct (n <? 0)%Z eqn:E; [apply Z.ltb_lt in E; lia | ].
  rewrite length_firstn. lia.
Qed.

Lemma sliceItems_length (v : Value) (n : Z) (items : list JSON) :
  (0 <= n)%Z -> sliceItems v n = inr items -> (Z.of_nat (length items) <= n)%Z.
Proof.
  intros Hn. unfold sliceItems.
  destruct (or_else v (VJson (JArr []))) as [ | [ | | | | l | ] | ]; try discriminate.
  intros H. inversion H; subst. now apply slice0_length.
Qed.

(** What a category's normalisation returns was produced by its callback
    from a slice of at most [maxResults] raw items. *)
Lemma normalised_from_slice {B} (f : JSON -> nat -> Exc B) (key : string)
      (data : JSON) (maxResults : Z) (out : list B) :
  bind (getProp data key)
       (fun v => bind (sliceItems v maxResults) (fun items => mapIndex f items)) = inr out ->
  exists v items,
    getProp data key = inr v /\
    sliceItems v maxResults = inr items /\
    mapIndexFrom f 0 items = inr out.
Proof.
  destruct (getProp data key) as [e | v] eqn:Ev; simpl; [discriminate | ].
  destruct (sliceItems v maxResults) as [e | items] eqn:Es; simpl; [discriminate | ].
  intros H. exists v, items. auto.
Qed.

Lemma getProp_object (fields : list (string * JSON)) (k : string) :
  getProp (JObj fields) k =
    inr match assoc k fields with
        | Some x => VJson x
        | None => VUndefined
        end.
Proof. simpl. destruct (assoc k fields); reflexivity. Qed.

Lemma append_assoc (a b c : string) : (a +++ b) +++ c = a +++ b +++ c.
Proof. induction a as [ | ch a IH]; simpl; [reflexivity | now rewrite IH]. Qed.

Lemma append_empty_r (a : string) : a +++ EmptyString = a.
Proof. induction a as [ | ch a IH]; simpl; [reflexivity | now rewrite IH]. Qed.

Lemma Category_eqb_eq (a b : Category) : Category_eqb a b = true <-> a = b.
Proof. destruct a, b; simpl; split; congruence. Qed.

Lemma Category_eqb_refl (a : Category) : Category_eqb a a = true.
Proof. destruct a; reflexivity. Qed.

Lemma update_same (t : Tasks) (c c' : Category) : update t c (t c) c' = t c'.
Proof.
  unfold update. destruct (Category_eqb c c') eqn:E; [ | reflexivity].
  apply Category_eqb_eq in E. now subst.
Qed.

Section RunFacts.

Variable apiKey : option string.
Variable backend : Backend.
Variable sq : string.
Variable mr : Z.
Variable cts : list Category.

Ltac segment_done :=
  (eexists; eexists; split; [reflexivity | simpl]);
  repeat split; eauto; try lia;
  rewrite <- ?app_assoc, ?app_nil_r; reflexivity.

Lemma resume_spec (c : Category) (p : Pending) (w : World) :
  st_ok apiKey backend sq mr cts c p -> 0 < rank p ->
  exists p' w',
    resume c mr p w = (p', w') /\
    st_ok apiKey backend sq mr cts c p' /\ rank p' < rank p /\
    network w' = network w /\
    if is_done p'
    then obj w' = commit apiKey backend sq mr c (obj w) /\
         console w' = console w ++ failure_log apiKey backend sq mr c
    else obj w' = obj w /\ console w' = console w.
Proof.
  destruct p as [ | o | j | | e]; simpl; try lia.
  - intros [Hact ->] _.
    unfold failure_log, commit, web_result, video_result, image_result, news_result.
    destruct c; simpl;
      unfold searchWeb_response, searchVideos_response, searchImages_response,
        searchNews_response, try_catch, ebind, awaitedFetch;
      destruct (reply apiKey backend sq mr _) as [e | response] eqn:E;
      simpl;
      try (destruct (ok response) eqn:Hok; simpl);
      segment_done.
  - intros [Hact (response & E & Hok & <-)] _.
    unfold failure_log, commit, web_result, video_result, image_result, news_result.
    destruct c; simpl; rewrite E; simpl; rewrite Hok; simpl;
      unfold searchWeb_json, searchVideos_json, searchImages_json,
        searchNews_json, try_catch, ebind, awaitedJson, lift;
      destruct (json response) as [e | data]; simpl;
      try segment_done.
    + destruct (webItems data mr); segment_done.
    + destruct (videoItems data mr); segment_done.
    + destruct (imageItems data mr); segment_done.
    + destruct (newsItems data mr); segment_done.
Qed.

Lemma resume_idle (c : Category) (p : Pending) (w : World) :
  rank p = 0 -> resume c mr p w = (p, w).
Proof. destruct p; simpl; intros; try discriminate; reflexivity. Qed.

Lemma rank_pos_not_done (p : Pending) : 0 < rank p -> is_done p = false.
Proof. destruct p; simpl; intros; try lia; reflexivity. Qed.

Lemma st_ok_active (c : Category) (p : Pending) :
  st_ok apiKey backend sq mr cts c p -> 0 < rank p -> includes cts c = true.
Proof. destruct p; simpl; intros H ?; try lia; apply H. Qed.

Lemma commit_videos (c : Category) (r : SearchResults) :
  videos (commit apiKey backend sq mr c r) =
    match c with
    | video => items_or_nil (video_result apiKey backend sq mr)
    | _ => videos r
    end.
Proof.
  destruct c; simpl; auto;
    [destruct (web_result _ _ _ _) | destruct (news_result _ _ _ _)]; reflexivity.
Qed.

Lemma commit_images (c : Category) (r : SearchResults) :
  images (commit apiKey backend sq mr c r) =
    match c with
    | image => items_or_nil (image_result apiKey backend sq mr)
    | _ => images r
    end.
Proof.
  destruct c; simpl; auto;
    [destruct (web_result _ _ _ _) | destruct (news_result _ _ _ _)]; reflexivity.
Qed.

Lemma commit_query (c : Category) (r : SearchResults) :
  query (commit apiKey backend sq mr c r) = query r.
Proof.
  destruct c; simpl; auto;
    [destruct (web_result _ _ _ _) | destruct (news_result _ _ _ _)]; reflexivity.
Qed.

Lemma commit_results (c : Category) (r : SearchResults) :
  results (commit apiKey backend sq mr c r) =
    match c with
    | web =>
        match web_result apiKey backend sq mr with
        | inr l => l
        | inl _ => results r
        end
    | news => results r ++ items_or_nil (news_result apiKey backend sq mr)
    | _ => results r
    end.
Proof.
  destruct c; simpl; auto;
    [destruct (web_result _ _ _ _) | destruct (news_result _ _ _ _)];
    simpl; rewrite ?app_nil_r; reflexivity.
Qed.

Lemma deliver_inv (query0 : string) (c : Category) (s : Tasks * World) :
  Inv apiKey backend sq mr cts query0 s ->
  Inv apiKey backend sq mr cts query0 (deliver mr c s).
Proof.
  destruct s as [t w]. intros [Ht Hv Hi Hr Hq Hn Hc Hco]. cbn [fst snd] in *.
  unfold deliver.
  destruct (Nat.eq_dec (rank (t c)) 0) as [Hz | Hnz].
  - rewrite (resume_idle c (t c) w Hz).
    constructor; cbn [fst snd]; intros; rewrite ?update_same in *; auto.
  - assert (Hpos : 0 < rank (t c)) by lia.
    pose proof (rank_pos_not_done _ Hpos) as Hnd.
    pose proof (st_ok_active _ _ (Ht c) Hpos) as Hact.
    destruct (resume_spec c (t c) w (Ht c) Hpos)
      as (p' & w' & -> & Hp' & Hrank & Hnet & Hobj).
    assert (Htasks : forall c', st_ok apiKey backend sq mr cts c' (update t c p' c')).
    { intros c'. unfold update.
      destruct (Category_eqb c c') eqn:Heq; [ | apply Ht].
      apply Category_eqb_eq in Heq. now subst. }
    destruct (is_done p') eqn:Hd.
    + destruct Hobj as [Ho Hcon].
      constructor; cbn [fst snd]; auto.
      * rewrite Ho, commit_videos.
        destruct c; cbn; rewrite ?Hd; auto.
        unfold contribution. now rewrite Hact.
      * rewrite Ho, commit_images.
        destruct c; cbn; rewrite ?Hd; auto.
        unfold contribution. now rewrite Hact.
      * rewrite Ho, commit_results. unfold results_ok in *.
        destruct c; cbn [update Category_eqb]; rewrite ?Hd, ?Hnd in *; auto;
          unfold contribution, failed in *; rewrite ?Hact in *.
        -- destruct (is_done (t news)), (web_result apiKey backend sq mr);
             simpl in *; rewrite ?Hr; auto.
        -- destruct (is_done (t web)); rewrite Hr; auto.
      * now rewrite Ho, commit_query.
      * congruence.
      * intros c0 Ha Hdone. rewrite Hcon. unfold update in Hdone.
        destruct (Category_eqb c c0) eqn:Heq.
        -- apply Category_eqb_eq in Heq. subst c0.
           apply incl_appr, incl_refl.
        -- apply incl_appl. auto.
      * intros entry. rewrite Hcon, in_app_iff. intros [Hin | Hin]; eauto.
    + destruct Hobj as [Ho Hcon].
      assert (Hsame : forall x, is_done (update t c p' x) = is_done (t x)).
      { intros x. unfold update.
        destruct (Category_eqb c x) eqn:Heq; [ | reflexivity].
        apply Category_eqb_eq in Heq. subst x. congruence. }
      constructor; cbn [fst snd]; rewrite ?Hsame, ?Ho, ?Hcon; auto; try congruence.
      intros c0 Ha Hdone. rewrite Hsame in Hdone. auto.
Qed.

Lemma run_inv (query0 : string) (schedule : list Category) (s : Tasks * World) :
  Inv apiKey backend sq mr cts query0 s ->
  Inv apiKey backend sq mr cts query0 (run mr schedule s).
Proof.
  unfold run. revert s.
  induction schedule as [ | c schedule IH]; intros s H; simpl; auto.
  apply IH. now apply deliver_inv.
Qed.

(** A delivery moves the addressed handler one segment on and leaves the
    other handlers where they are. *)
Lemma deliver_rank (query0 : string) (c x : Category) (s : Tasks * World) :
  Inv apiKey backend sq mr cts query0 s ->
  rank (fst (deliver mr c s) x) <=
    if Category_eqb c x then pred (rank (fst s x)) else rank (fst s x).
Proof.
  destruct s as [t w]. intros [Ht _ _ _ _ _ _ _]. cbn [fst snd] in *.
  unfold deliver.
  destruct (Nat.eq_dec (rank (t c)) 0) as [Hz | Hnz].
  - rewrite (resume_idle c (t c) w Hz). cbn [fst]. rewrite update_same.
    destruct (Category_eqb c x) eqn:Heq; [ | lia].
    apply Category_eqb_eq in Heq. subst x. lia.
  - destruct (resume_spec c (t c) w (Ht c) ltac:(lia))
      as (p' & w' & -> & _ & Hrank & _).
    cbn [fst]. unfold update.
    destruct (Category_eqb c x) eqn:Heq; [ | lia].
    apply Category_eqb_eq in Heq. subst x. lia.
Qed.

Lemma run_rank_le (query0 : string) (schedule : list Category) (x : Category)
      (s : Tasks * World) :
  Inv apiKey backend sq mr cts query0 s ->
  rank (fst (run mr schedule s) x) <= rank (fst s x).
Proof.
  unfold run. revert s.
  induction schedule as [ | c schedule IH]; intros s H; simpl; auto.
  etransitivity; [apply IH; now apply deliver_inv | ].
  pose proof (deliver_rank query0 c x s H) as Hr.
  destruct (Category_eqb c x); lia.
Qed.

Lemma run_app (l1 l2 : list Category) (s : Tasks * World) :
  run mr (l1 ++ l2) s = run mr l2 (run mr l1 s).
Proof. unfold run. apply fold_left_app. Qed.

Lemma run_twice (query0 : string) (l1 l2 : list Category) (x : Category)
      (s : Tasks * World) :
  Inv apiKey backend sq mr cts query0 s ->
  rank (fst (run mr (l1 ++ [x; x] ++ l2) s) x) = 0.
Proof.
  intros H. rewrite !run_app.
  pose proof (run_inv query0 l1 s H) as H1.
  set (s1 := run mr l1 s) in *.
  change (run mr [x; x] s1) with (deliver mr x (deliver mr x s1)).
  pose proof (deliver_inv query0 x s1 H1) as H2.
  pose proof (deliver_inv query0 x _ H2) as H3.
  pose proof (deliver_rank query0 x x s1 H1) as R1.
  pose proof (deliver_rank query0 x x _ H2) as R2.
  pose proof (run_rank_le query0 l2 x _ H3) as R3.
  rewrite Category_eqb_refl in R1, R2.
  assert (Hmax : rank (fst s1 x) <= 2) by (destruct (fst s1 x); simpl; lia).
  lia.
Qed.

(** Once the answers left over have been delivered every handler has
    run to its end. *)
Lemma remaining_done (query0 : string) (x : Category) (s : Tasks * World) :
  Inv apiKey backend sq mr cts query0 s ->
  is_done (fst (run mr remaining s) x) = true.
Proof.
  intros H.
  pose proof (run_inv query0 remaining s H) as Hfin.
  assert (Hrank : rank (fst (run mr remaining s) x) = 0).
  { destruct x.
    - apply (run_twice query0 [] [video; video; image; image; news; news] web s H).
    - apply (run_twice query0 [web; web] [image; image; news; news] video s H).
    - apply (run_twice query0 [web; web; video; video] [news; news] image s H).
    - apply (run_twice query0 [web; web; video; video; image; image] [] news s H). }
  pose proof (inv_tasks _ _ _ _ _ _ _ Hfin x) as Hok.
  destruct (fst (run mr remaining s) x); simpl in *; try discriminate; tauto.
Qed.

Lemma all_done_resolved (t : Tasks) :
  (forall c, is_done (t c) = true) -> promise_all t = AllResolved.
Proof.
  intros H. unfold promise_all.
  pose proof (H web); pose proof (H video); pose proof (H image); pose proof (H news).
  destruct (t web), (t video), (t image), (t news); simpl in *; congruence.
Qed.

Lemma after_calls_inv (query0 : string) :
  Inv apiKey backend sq mr cts query0 (after_calls apiKey backend sq mr cts query0).
Proof.
  unfold after_calls, call_if.
  destruct (includes cts web) eqn:Hw, (includes cts video) eqn:Hv,
    (includes cts image) eqn:Hi, (includes cts news) eqn:Hn;
    cbn;
    (constructor; unfold results_ok, contribution; cbn;
     rewrite ?Hw, ?Hv, ?Hi, ?Hn; auto;
     try (intros c; destruct c; cbn; intros; auto; congruence);
     intros ? []).
Qed.

End RunFacts.

(** ** The answer of [search] when the key is configured *)

(** [search] returns, and what it returns is the shared object as the event
    loop left it, with the count set. *)
Lemma search_final (apiKey : option string) (backend : Backend)
      (schedule : list Category) (query0 : string) (maxResults : option Z)
      (searchDepth : option SearchDepth)
      (includeDomains excludeDomains : option (list string))
      (options : option Options) :
  apiKeyMissing apiKey = false ->
  let mr := maxResultsOrDefault maxResults in
  let sq := searchQuery query0 includeDomains excludeDomains in
  let cts := contentTypesOf options in
  let w := snd (run mr (schedule ++ remaining)
                    (after_calls apiKey backend sq mr cts query0)) in
  search apiKey backend schedule query0 maxResults searchDepth
         includeDomains excludeDomains options =
    mkOutcome (Returns (set_number_of_results (length (results (obj w))) (obj w)))
              (console w) (network w).
Proof.
  intros Hkey mr sq cts w. unfold search. rewrite Hkey.
  fold mr sq cts.
  change (call_if apiKey backend cts news sq mr _)
    with (after_calls apiKey backend sq mr cts query0).
  subst w. rewrite run_app.
  pose proof (after_calls_inv apiKey backend sq mr cts query0) as H0.
  pose proof (run_inv apiKey backend sq mr cts query0 schedule _ H0) as H1.
  pose proof (fun x => remaining_done apiKey backend sq mr cts query0 x _ H1) as Hdone.
  destruct (run mr remaining _) as [t w].
  cbn [fst snd] in *.
  now rewrite (all_done_resolved t Hdone).
Qed.

(** Each of [videos] and [images] holds what its own category contributed;
    [results] holds the web items followed by the news items, or the web
    items alone when the web handler assigned after the news handler had
    appended; the console holds the lines of the failing handlers and
    nothing else. *)
Lemma search_spec (apiKey : option string) (backend : Backend)
      (schedule : list Category) (query0 : string) (maxResults : option Z)
      (searchDepth : option SearchDepth)
      (includeDomains excludeDomains : option (list string))
      (options : option Options) :
  apiKeyMissing apiKey = false ->
  let mr := maxResultsOrDefault maxResults in
  let sq := searchQuery query0 includeDomains excludeDomains in
  let cts := contentTypesOf options in
  exists r lg,
    search apiKey backend schedule query0 maxResults searchDepth
           includeDomains excludeDomains options =
      mkOutcome (Returns r) lg
                (map (request_of apiKey sq mr)
                     (filter (includes cts) [web; video; image; news])) /\
    videos r = contribution cts video (video_result apiKey backend sq mr) /\
    images r = contribution cts image (image_result apiKey backend sq mr) /\
    results_ok apiKey backend sq mr cts true true (results r) /\
    query r = query0 /\
    number_of_results r = length (results r) /\
    (forall c, includes cts c = true -> incl (failure_log apiKey backend sq mr c) lg) /\
    (forall entry, In entry lg ->
                   exists c, includes cts c = true /\
                             In entry (failure_log apiKey backend sq mr c)).
Proof.
  intros Hkey mr sq cts.
  rewrite (search_final apiKey backend schedule query0 maxResults searchDepth
             includeDomains excludeDomains options Hkey).
  fold mr sq cts.
  pose proof (after_calls_inv apiKey backend sq mr cts query0) as H0.
  pose proof (run_inv apiKey backend sq mr cts query0 (schedule ++ remaining) _ H0) as H2.
  assert (Hdone : forall x,
             is_done (fst (run mr (schedule ++ remaining)
                               (after_calls apiKey backend sq mr cts query0)) x) = true).
  { intros x. rewrite run_app. apply (remaining_done apiKey backend sq mr cts query0).
    now apply run_inv. }
  destruct (run mr (schedule ++ remaining) _) as [t w].
  destruct H2 as [Ht Hv Hi Hr Hq Hn Hc Hco]. cbn [fst snd] in *.
  rewrite !Hdone in *.
  eexists; eexists; split; [rewrite <- Hn; reflexivity | ].
  cbn. repeat split; auto.
Qed.

(** ** Ordered delivery: the web reply before the news reply *)

Section Ordered.

Variable apiKey : option string.
Variable backend : Backend.
Variable sq : string.
Variable mr : Z.
Variable cts : list Category.

Lemma deliver_other (c x : Category) (s : Tasks * World) :
  Category_eqb c x = false -> fst (deliver mr c s) x = fst s x.
Proof.
  destruct s as [t w]. intros H. unfold deliver.
  destruct (resume c mr (t c) w) as [p w']. cbn [fst]. unfold update. now rewrite H.
Qed.

Lemma run_other (l : list Category) (x : Category) (s : Tasks * World) :
  ~ In x l -> fst (run mr l s) x = fst s x.
Proof.
  unfold run. revert s.
  induction l as [ | c l IH]; intros s H; simpl; [reflexivity | ].
  rewrite IH by (intros Hin; apply H; now right).
  apply deliver_other.
  destruct (Category_eqb c x) eqn:E; [ | reflexivity].
  apply Category_eqb_eq in E. subst. exfalso. apply H. now left.
Qed.

(** A delivery writes to the shared object exactly when it finishes a
    handler, and then it makes that handler's write. *)
Lemma deliver_obj (query0 : string) (c : Category) (s : Tasks * World) :
  Inv apiKey backend sq mr cts query0 s ->
  obj (snd (deliver mr c s)) =
    if negb (is_done (fst s c)) && is_done (fst (deliver mr c s) c)
    then commit apiKey backend sq mr c (obj (snd s))
    else obj (snd s).
Proof.
  destruct s as [t w]. intros [Ht _ _ _ _ _ _ _]. cbn [fst snd] in *.
  unfold deliver.
  destruct (Nat.eq_dec (rank (t c)) 0) as [Hz | Hnz].
  - rewrite (resume_idle mr c (t c) w Hz). cbn [fst snd]. rewrite update_same.
    destruct (is_done (t c)); reflexivity.
  - destruct (resume_spec apiKey backend sq mr cts c (t c) w (Ht c) ltac:(lia))
      as (p' & w' & -> & _ & _ & _ & Hobj).
    cbn [fst snd]. unfold update. rewrite Category_eqb_refl.
    rewrite (rank_pos_not_done (t c)) by lia. cbn [negb andb].
    destruct (is_done p'); apply Hobj.
Qed.

Lemma after_calls_task (query0 : string) (c : Category) :
  fst (after_calls apiKey backend sq mr cts query0) c =
    if includes cts c then AwaitFetch (reply apiKey backend sq mr c) else NotStarted.
Proof.
  unfold after_calls, call_if.
  destruct (includes cts web) eqn:Hw, (includes cts video) eqn:Hv,
    (includes cts image) eqn:Hi, (includes cts news) eqn:Hn;
    destruct c; cbn; rewrite ?Hw, ?Hv, ?Hi, ?Hn; reflexivity.
Qed.

Lemma rank_zero_done (c : Category) (p : Pending) :
  st_ok apiKey backend sq mr cts c p -> rank p = 0 -> is_done p = true.
Proof. destruct p; simpl; intros; try discriminate; tauto. Qed.

(** When nothing in the schedule is addressed to the news handler, its
    reply is the last to be handled, and the shared list ends as the web
    items followed by the news items. *)
Lemma run_news_last (query0 : string) (schedule : list Category) :
  ~ In news schedule ->
  results (obj (snd (run mr (schedule ++ remaining)
                         (after_calls apiKey backend sq mr cts query0)))) =
    contribution cts web (web_result apiKey backend sq mr) ++
    contribution cts news (news_result apiKey backend sq mr).
Proof.
  intros Hno.
  set (s0 := after_calls apiKey backend sq mr cts query0).
  pose proof (after_calls_inv apiKey backend sq mr cts query0) as H0. fold s0 in H0.
  change remaining with ([web; web] ++ [video; video; image; image] ++ [news; news]).
  replace (schedule ++ [web; web] ++ [video; video; image; image] ++ [news; news])
    with ((schedule ++ [web; web] ++ [video; video; image; image]) ++ [news; news])
    by (now rewrite <- !app_assoc).
  rewrite run_app.
  set (pre := schedule ++ [web; web] ++ [video; video; image; image]).
  pose proof (run_inv apiKey backend sq mr cts query0 pre s0 H0) as H1.
  assert (Hweb : is_done (fst (run mr pre s0) web) = true).
  { apply (rank_zero_done web); [apply H1 | ].
    apply (run_twice apiKey backend sq mr cts query0); assumption. }
  assert (Hnews : fst (run mr pre s0) news = fst s0 news).
  { apply run_other. unfold pre. rewrite !in_app_iff. simpl.
    intros [? | [[? | [? | []]] | [? | [? | [? | [? | []]]]]]];
      try discriminate; auto. }
  unfold s0 in Hnews at 2. rewrite after_calls_task in Hnews.
  set (s1 := run mr pre s0) in *.
  change (run mr [news; news] s1) with (deliver mr news (deliver mr news s1)).
  pose proof (deliver_inv apiKey backend sq mr cts query0 news s1 H1) as H2.
  pose proof (deliver_inv apiKey backend sq mr cts query0 news _ H2) as H3.
  pose proof (inv_results _ _ _ _ _ _ _ H1) as Hr. rewrite Hweb in Hr.
  rewrite (deliver_obj query0 news _ H2), (deliver_obj query0 news s1 H1).
  destruct (includes cts news) eqn:Hact.
  - assert (Hd3 : is_done (fst (deliver mr news (deliver mr news s1)) news) = true).
    { apply (rank_zero_done news); [apply H3 | ].
      pose proof (deliver_rank apiKey backend sq mr cts query0 news news s1 H1) as R1.
      pose proof (deliver_rank apiKey backend sq mr cts query0 news news _ H2) as R2.
      rewrite Category_eqb_refl in R1, R2. rewrite Hnews in R1. simpl in R1. lia. }
    rewrite Hd3, Hnews in *. cbn [is_done negb andb] in *.
    unfold results_ok in Hr.
    assert (HN : contribution cts news (news_result apiKey backend sq mr) =
                 items_or_nil (news_result apiKey backend sq mr))
      by (unfold contribution; now rewrite Hact).
    destruct (is_done (fst (deliver mr news s1) news)); cbn [negb andb];
      rewrite commit_results, Hr, HN; reflexivity.
  - assert (Hidle : fst (deliver mr news s1) news = NotStarted).
    { destruct s1 as [t1 w1]. cbn [fst] in Hnews. unfold deliver.
      rewrite Hnews. reflexivity. }
    rewrite Hidle, Hnews in *. cbn [is_done negb andb] in *.
    unfold results_ok in Hr.
    assert (HN : contribution cts news (news_result apiKey backend sq mr) = [])
      by (unfold contribution; now rewrite Hact).
    rewrite HN in *. rewrite app_nil_r in *.
    destruct Hr as [Hr | (_ & _ & Hr)]; exact Hr.
Qed.

End Ordered.

(** The web and news items of the answer come in that order whenever the
    news reply is the last one handled. *)
Lemma search_news_last (apiKey : option string) (backend : Backend)
      (schedule : list Category) (query0 : string) (maxResults : option Z)
      (searchDepth : option SearchDepth)
      (includeDomains excludeDomains : option (list string))
      (options : option Options) :
  apiKeyMissing apiKey = false ->
  ~ In news schedule ->
  let mr := maxResultsOrDefault maxResults in
  let sq := searchQuery query0 includeDomains excludeDomains in
  let cts := contentTypesOf options in
  exists r,
    completion (search apiKey backend schedule query0 maxResults searchDepth
                       includeDomains excludeDomains options) = Returns r /\
    results r = contribution cts web (web_result apiKey backend sq mr) ++
                contribution cts news (news_result apiKey backend sq mr).
Proof.
  intros Hkey Hno mr sq cts.
  rewrite (search_final apiKey backend schedule query0 maxResults searchDepth
             includeDomains excludeDomains options Hkey).
  fold mr sq cts. cbn [completion].
  eexists. split; [reflexivity | ].
  cbn [set_number_of_results results].
  now apply run_news_last.
Qed.

(** * Properties of the provider *)

(** C5. Every category's normalisation keeps at most [maxResults] items,
    however many the payload holds, for a result cap that is not negative
    (the cap is a count: the request type has it at least 1). *)
Theorem category_items_at_most_maxResults (data : JSON) (maxResults : Z) :
  (0 <= maxResults)%Z ->
  (forall items, webItems data maxResults = inr items ->
                 (Z.of_nat (length items) <= maxResults)%Z) /\
  (forall items, videoItems data maxResults = inr items ->
                 (Z.of_nat (length items) <= maxResults)%Z) /\
  (forall items, imageItems data maxResults = inr items ->
                 (Z.of_nat (length items) <= maxResults)%Z) /\
  (forall items, newsItems data maxResults = inr items ->
                 (Z.of_nat (length items) <= maxResults)%Z).
Proof.
  intros Hn.
  repeat split; intros out H;
    apply normalised_from_slice in H;
    destruct H as (v & items & _ & Hs & Hm);
    rewrite (mapIndexFrom_length _ _ _ _ Hm);
    eapply sliceItems_length; eauto.
Qed.

Lemma category_items_at_most_maxResults_witness :
  (0 <= 2)%Z /\
  (Z.of_nat (length (items_or_nil (videoItems three_videos 2))) <= 2)%Z.
Proof.
  split; [lia | ].
  apply (proj1 (proj2 (category_items_at_most_maxResults three_videos 2 ltac:(lia)))).
  reflexivity.
Defined.

(** C7. An image item without a [thumbnailUrl] whose [imageUrl] is a string
    is normalised to an item whose [thumbnailUrl] is that string. *)
Theorem image_thumbnail_falls_back_to_imageUrl
        (fields : list (string * JSON)) (index : nat) (imageUrl : string) :
  assoc "thumbnailUrl" fields = None ->
  assoc "imageUrl" fields = Some (JStr imageUrl) ->
  exists item,
    imageItem (JObj fields) index = inr item /\
    SearchImageItem.thumbnailUrl item = VStr imageUrl.
Proof.
  intros Ht Hi. unfold imageItem.
  rewrite !getProp_object, Ht, Hi. simpl.
  eexists. split; [reflexivity | ]. simpl.
  unfold or_else, VStr. simpl.
  destruct (String.eqb_spec imageUrl EmptyString) as [-> | Hne]; reflexivity.
Qed.

Lemma image_thumbnail_falls_back_to_imageUrl_witness :
  exists item,
    imageItem (JObj image_without_thumbnail) 0 = inr item /\
    SearchImageItem.thumbnailUrl item = VStr "https://i1/full.png".
Proof.
  apply (image_thumbnail_falls_back_to_imageUrl image_without_thumbnail 0
           "https://i1/full.png"); reflexivity.
Defined.

(** C8. In a successful video reply the [position] of the item at index [i]
    of the normalised list is [i], whatever the payload says. *)
Theorem video_position_is_index (data : JSON) (maxResults : Z)
        (items : list SerperSearchResultItem.t) (i : nat)
        (item : SerperSearchResultItem.t) :
  videoItems data maxResults = inr items ->
  nth_error items i = Some item ->
  SerperSearchResultItem.position item = i.
Proof.
  intros H Hn.
  apply normalised_from_slice in H.
  destruct H as (v & raw & _ & _ & Hm).
  destruct (mapIndexFrom_nth _ _ _ _ _ _ Hm Hn) as (x & _ & Hf).
  simpl in Hf. unfold videoItem in Hf.
  destruct (getProp x "title"); simpl in Hf; [discriminate | ].
  destruct (getProp x "link"); simpl in Hf; [discriminate | ].
  destruct (getProp x "snippet"); simpl in Hf; [discriminate | ].
  destruct (getProp x "imageUrl"); simpl in Hf; [discriminate | ].
  destruct (getProp x "duration"); simpl in Hf; [discriminate | ].
  destruct (getProp x "source"); simpl in Hf; [discriminate | ].
  destruct (getProp x "channel"); simpl in Hf; [discriminate | ].
  destruct (getProp x "date"); simpl in Hf; [discriminate | ].
  inversion Hf. reflexivity.
Qed.

Lemma video_position_is_index_witness :
  SerperSearchResultItem.position
    (nth 2 (items_or_nil (videoItems three_videos 10))
         (SerperSearchResultItem.mk VUndefined VUndefined VUndefined VUndefined
            VUndefined VUndefined VUndefined VUndefined 0)) = 2.
Proof.
  apply (video_position_is_index three_videos 10
           (items_or_nil (videoItems three_videos 10)) 2); reflexivity.
Defined.

(** C10. A web or news item that is an object is normalised with [url] set
    to whatever [link] holds, [undefined] when the item has no [link];
    [title] and [content] get their defaults when the field is missing and
    also when it is the empty string, and are copied when they are a
    non-empty string. *)
Theorem web_and_news_url_is_link_without_default
        (fields : list (string * JSON)) (index : nat) :
  exists item,
    webItem (JObj fields) index = inr item /\
    newsItem (JObj fields) index = inr item /\
    SearchResultItem.url item =
      match assoc "link" fields with
      | Some link => VJson link
      | None => VUndefined
      end /\
    (assoc "title" fields = None \/ assoc "title" fields = Some (JStr EmptyString) ->
     SearchResultItem.title item = VStr "No title") /\
    (assoc "snippet" fields = None \/ assoc "snippet" fields = Some (JStr EmptyString) ->
     SearchResultItem.content item = VStr "No description available") /\
    (forall s, s <> EmptyString -> assoc "title" fields = Some (JStr s) ->
               SearchResultItem.title item = VStr s) /\
    (forall s, s <> EmptyString -> assoc "snippet" fields = Some (JStr s) ->
               SearchResultItem.content item = VStr s).
Proof.
  unfold webItem, newsItem. rewrite !getProp_object. simpl.
  eexists. split; [reflexivity | ]. split; [reflexivity | ]. simpl.
  split; [reflexivity | ].
  repeat split.
  - intros [-> | ->]; reflexivity.
  - intros [-> | ->]; reflexivity.
  - intros s Hs ->. unfold or_else. simpl.
    apply String.eqb_neq in Hs. now rewrite Hs.
  - intros s Hs ->. unfold or_else. simpl.
    apply String.eqb_neq in Hs. now rewrite Hs.
Qed.

Lemma web_and_news_url_is_link_without_default_witness :
  exists item,
    webItem (JObj [("title", JStr EmptyString)]) 0 = inr item /\
    newsItem (JObj [("title", JStr EmptyString)]) 0 = inr item /\
    SearchResultItem.url item = VUndefined /\
    SearchResultItem.title item = VStr "No title" /\
    SearchResultItem.content item = VStr "No description available".
Proof.
  destruct (web_and_news_url_is_link_without_default [("title", JStr EmptyString)] 0)
    as (item & Hw & Hn & Hu & Ht & Hc & _).
  exists item.
  split; [exact Hw | ]. split; [exact Hn | ]. split; [exact Hu | ].
  split; [apply Ht; right; reflexivity | apply Hc; left; reflexivity].
Defined.

(** C1. Without an API key (undefined, or the empty string) [search] throws
    its configuration error; no request has been sent and nothing has been
    logged, whatever the arguments, the backend and the schedule. *)
Theorem search_without_key_throws_before_any_request
        (apiKey : option string) (backend : Backend) (schedule : list Category)
        (query0 : string) (maxResults : option Z) (searchDepth : option SearchDepth)
        (includeDomains excludeDomains : option (list string))
        (options : option Options) :
  apiKeyMissing apiKey = true ->
  search apiKey backend schedule query0 maxResults searchDepth
         includeDomains excludeDomains options =
    mkOutcome (Throws (Error "Serper API key not configured")) [] [].
Proof.
  intros H. unfold search. now rewrite H.
Qed.

Lemma search_without_key_throws_before_any_request_witness :
  apiKeyMissing None = true /\
  search None sample_backend [news; web] "rocq" (Some 5%Z) (Some advanced)
         (Some ["a.org"]) (Some ["b.org"]) all_categories =
    mkOutcome (Throws (Error "Serper API key not configured")) [] [].
Proof.
  split; [reflexivity | ].
  apply search_without_key_throws_before_any_request. reflexivity.
Defined.

(** A handler that fails leaves a line on the console that names its
    category. *)
Lemma failed_is_logged (apiKey : option string) (backend : Backend)
      (sq : string) (mr : Z) (c : Category) :
  failed apiKey backend sq mr c = true ->
  exists entry,
    In entry (failure_log apiKey backend sq mr c) /\ mentions c entry = true.
Proof.
  unfold failed, failure_log, web_result, video_result, image_result, news_result.
  destruct c; simpl;
    (destruct (reply apiKey backend sq mr _) as [e | response]; simpl;
     [ intros _; eexists; split; [left; reflexivity | reflexivity] | ];
     destruct (ok response); simpl;
     [ | intros _; eexists; split; [left; reflexivity | reflexivity] ];
     destruct (json response) as [e | data]; simpl;
     [ intros _; eexists; split; [left; reflexivity | reflexivity] | ]).
  - destruct (webItems data mr); simpl; [ | discriminate].
    intros _; eexists; split; [left; reflexivity | reflexivity].
  - destruct (videoItems data mr); simpl; [ | discriminate].
    intros _; eexists; split; [left; reflexivity | reflexivity].
  - destruct (imageItems data mr); simpl; [ | discriminate].
    intros _; eexists; split; [left; reflexivity | reflexivity].
  - destruct (newsItems data mr); simpl; [ | discriminate].
    intros _; eexists; split; [left; reflexivity | reflexivity].
Qed.

(** C2. With the key configured [search] returns a [SearchResults] whatever
    the backend does and in whatever order it answers.  [videos] and
    [images] are each what their own category contributed, so the empty
    list when that category failed; [results] is what the news category
    contributed when the web category failed and what the web category
    contributed when the news category failed; every failing category has
    a line on the console.  When the video endpoint answers with a status
    that is not a success, [videos] is empty and that status is logged. *)
Theorem search_isolates_category_failures
        (apiKey : option string) (backend : Backend) (schedule : list Category)
        (query0 : string) (maxResults : option Z) (searchDepth : option SearchDepth)
        (includeDomains excludeDomains : option (list string))
        (options : option Options) :
  apiKeyMissing apiKey = false ->
  let mr := maxResultsOrDefault maxResults in
  let sq := searchQuery query0 includeDomains excludeDomains in
  let cts := contentTypesOf options in
  exists r lg rqs,
    search apiKey backend schedule query0 maxResults searchDepth
           includeDomains excludeDomains options = mkOutcome (Returns r) lg rqs /\
    videos r = contribution cts video (video_result apiKey backend sq mr) /\
    images r = contribution cts image (image_result apiKey backend sq mr) /\
    (failed apiKey backend sq mr video = true -> videos r = []) /\
    (failed apiKey backend sq mr image = true -> images r = []) /\
    (failed apiKey backend sq mr web = true ->
     results r = contribution cts news (news_result apiKey backend sq mr)) /\
    (failed apiKey backend sq mr news = true ->
     results r = contribution cts web (web_result apiKey backend sq mr)) /\
    (forall c, includes cts c = true -> failed apiKey backend sq mr c = true ->
               exists entry, In entry lg /\ mentions c entry = true) /\
    (forall response,
        includes cts video = true ->
        reply apiKey backend sq mr video = FetchResolves response ->
        ok response = false ->
        videos r = [] /\
        In (Log ("Serper video search failed: " +++ statusText response)) lg).
Proof.
  intros Hkey mr sq cts.
  destruct (search_spec apiKey backend schedule query0 maxResults searchDepth
              includeDomains excludeDomains options Hkey)
    as (r & lg & Hs & Hv & Hi & Hr & Hq & Hn & Hlog & _).
  fold mr sq cts in Hs, Hv, Hi, Hr, Hlog.
  exists r, lg. eexists. split; [exact Hs | ].
  assert (Hnil : forall A (x : Exc (list A)) c,
             is_inl x = true -> contribution cts c x = @nil A).
  { intros A x c Hx. unfold contribution.
    destruct x; [ | discriminate]. now destruct (includes cts c). }
  split; [exact Hv | ]. split; [exact Hi | ].
  split; [intros Hf; rewrite Hv; now apply Hnil | ].
  split; [intros Hf; rewrite Hi; now apply Hnil | ].
  unfold results_ok in Hr.
  split.
  { intros Hf. destruct Hr as [Hr | (_ & Hok & _)]; [ | congruence].
    rewrite Hr, (Hnil _ _ web Hf). reflexivity. }
  split.
  { intros Hf. destruct Hr as [Hr | (_ & _ & Hr)]; [ | exact Hr].
    rewrite Hr, (Hnil _ _ news Hf). apply app_nil_r. }
  split.
  { intros c Hc Hf.
    destruct (failed_is_logged apiKey backend sq mr c Hf) as (entry & Hin & Hm).
    exists entry. split; [ | exact Hm]. now apply (Hlog c Hc). }
  intros response Hc Hrep Hok.
  split.
  - rewrite Hv. apply Hnil. unfold video_result. rewrite Hrep. simpl. now rewrite Hok.
  - apply (Hlog video Hc). unfold failure_log. rewrite Hrep, Hok. left. reflexivity.
Qed.

Lemma search_isolates_category_failures_witness :
  apiKeyMissing (Some "key") = false /\
  exists r lg rqs,
    search (Some "key") failing_backend [video; news; image] "rocq" None None None None
           all_categories = mkOutcome (Returns r) lg rqs /\
    videos r = [] /\
    images r = [] /\
    length (results r) = 3.
Proof.
  split; [reflexivity | ].
  destruct (search_isolates_category_failures (Some "key") failing_backend
              [video; news; image] "rocq" None None None None all_categories eq_refl)
    as (r & lg & rqs & Hs & Hv & Hi & _).
  exists r, lg, rqs. split; [exact Hs | ].
  split; [exact Hv | ]. split; [exact Hi | ].
  vm_compute in Hs. inversion Hs. reflexivity.
Defined.

(** C4. Every request carries the rewritten query (and there is one request
    per requested category); with [includeDomains = [a, b]] the rewritten
    query contains "(site:a OR site:b)", with [excludeDomains = [c]] it
    contains "-site:c", with both the include filter comes first and the
    exclude filter is appended to it; the [query] of the answer is the
    caller's query. *)
Theorem domain_filters_rewrite_only_the_sent_query
        (apiKey : option string) (backend : Backend) (schedule : list Category)
        (query0 : string) (maxResults : option Z) (searchDepth : option SearchDepth)
        (includeDomains excludeDomains : option (list string))
        (options : option Options) :
  apiKeyMissing apiKey = false ->
  let out := search apiKey backend schedule query0 maxResults searchDepth
                    includeDomains excludeDomains options in
  let sq := searchQuery query0 includeDomains excludeDomains in
  requests out =
    map (request_of apiKey sq (maxResultsOrDefault maxResults))
        (filter (includes (contentTypesOf options)) [web; video; image; news]) /\
  Forall (fun request => q request = sq) (requests out) /\
  (forall a b, includeDomains = Some [a; b] ->
               contains sq ("(site:" +++ a +++ " OR site:" +++ b +++ ")")) /\
  (forall c, excludeDomains = Some [c] -> contains sq ("-site:" +++ c)) /\
  (forall a b c, includeDomains = Some [a; b] -> excludeDomains = Some [c] ->
                 sq = query0 +++ " (site:" +++ a +++ " OR site:" +++ b +++ ") -site:" +++ c) /\
  exists r, completion out = Returns r /\ query r = query0.
Proof.
  intros Hkey out sq.
  destruct (search_spec apiKey backend schedule query0 maxResults searchDepth
              includeDomains excludeDomains options Hkey)
    as (r & lg & Hs & _ & _ & _ & Hq & _).
  fold out sq in Hs.
  split; [now rewrite Hs | ].
  split.
  { rewrite Hs. cbn [requests]. apply Forall_forall.
    intros request Hin. apply in_map_iff in Hin.
    destruct Hin as (c & <- & _). reflexivity. }
  split.
  { intros a b ->. subst sq. unfold searchQuery. cbn [map String.concat].
    destruct excludeDomains as [[ | d ds] | ].
    - exists (query0 +++ " "), EmptyString.
      rewrite ?append_assoc. simpl. rewrite ?append_assoc. reflexivity.
    - exists (query0 +++ " "),
        (" " +++ String.concat " " (map (fun domain => "-site:" +++ domain) (d :: ds))).
      rewrite ?append_assoc. simpl. rewrite ?append_assoc. reflexivity.
    - exists (query0 +++ " "), EmptyString.
      rewrite ?append_assoc. simpl. rewrite ?append_assoc. reflexivity. }
  split.
  { intros c ->. subst sq. unfold searchQuery. cbn [map String.concat].
    match goal with
    | |- contains (?x +++ _) _ => exists (x +++ " "), EmptyString
    end.
    rewrite ?append_assoc, ?append_empty_r. reflexivity. }
  split.
  { intros a b c -> ->. subst sq. unfold searchQuery. cbn [map String.concat].
    rewrite ?append_assoc. simpl. rewrite ?append_assoc. reflexivity. }
  exists r. rewrite Hs. auto.
Qed.

Lemma domain_filters_rewrite_only_the_sent_query_witness :
  apiKeyMissing (Some "key") = false /\
  let out := search (Some "key") sample_backend [] "rocq" None None
                    (Some ["a.org"; "b.org"]) (Some ["c.org"]) web_and_news in
  Forall (fun request => q request = "rocq (site:a.org OR site:b.org) -site:c.org")
         (requests out) /\
  length (requests out) = 2 /\
  exists r, completion out = Returns r /\ query r = "rocq".
Proof.
  split; [reflexivity | ].
  destruct (domain_filters_rewrite_only_the_sent_query (Some "key") sample_backend []
              "rocq" None None (Some ["a.org"; "b.org"]) (Some ["c.org"]) web_and_news
              eq_refl) as (Hreq & Hall & _ & _ & _ & Hret).
  split; [exact Hall | ]. split; [ | exact Hret].
  rewrite Hreq. reflexivity.
Defined.

(** C6. Whatever the categories do, the answer's [number_of_results] is the
    length of its [results]: images and videos are not counted. *)
Theorem number_of_results_is_length_of_results
        (apiKey : option string) (backend : Backend) (schedule : list Category)
        (query0 : string) (maxResults : option Z) (searchDepth : option SearchDepth)
        (includeDomains excludeDomains : option (list string))
        (options : option Options) (r : SearchResults) :
  completion (search apiKey backend schedule query0 maxResults searchDepth
                     includeDomains excludeDomains options) = Returns r ->
  number_of_results r = length (results r).
Proof.
  destruct (apiKeyMissing apiKey) eqn:Hkey.
  - unfold search. rewrite Hkey. discriminate.
  - destruct (search_spec apiKey backend schedule query0 maxResults searchDepth
                includeDomains excludeDomains options Hkey)
      as (r' & lg & Hs & _ & _ & _ & _ & Hn & _).
    rewrite Hs. cbn [completion]. intros H. inversion H; subst. exact Hn.
Qed.

Lemma number_of_results_is_length_of_results_witness :
  exists r,
    completion (search (Some "key") sample_backend [image; news] "rocq" None None
                       None None all_categories) = Returns r /\
    number_of_results r = length (results r) /\
    length (results r) = 3 /\ length (images r) = 1 /\ length (videos r) = 3.
Proof.
  eexists. split; [reflexivity | ].
  split; [ | repeat split].
  apply (number_of_results_is_length_of_results (Some "key") sample_backend
           [image; news] "rocq" None None None None all_categories).
  reflexivity.
Defined.

(** C9. When [content_types] is given and empty, no request is sent and the
    answer is the fresh object: empty lists, the caller's query, count 0.
    When [options] or its [content_types] is missing the call is the call
    for the web category alone, which sends exactly one request, to the
    web endpoint. *)
Theorem empty_content_types_requests_nothing
        (apiKey : option string) (backend : Backend) (schedule : list Category)
        (query0 : string) (maxResults : option Z) (searchDepth : option SearchDepth)
        (includeDomains excludeDomains : option (list string)) :
  apiKeyMissing apiKey = false ->
  let call := search apiKey backend schedule query0 maxResults searchDepth
                     includeDomains excludeDomains in
  (forall ty,
      call (Some (mkOptions ty (Some []))) =
        mkOutcome (Returns (mkSearchResults [] [] [] query0 0)) [] []) /\
  (forall ty, call (Some (mkOptions ty None)) = call (Some (mkOptions ty (Some [web])))) /\
  call None = call (Some (mkOptions None (Some [web]))) /\
  requests (call None) =
    [mkRequest "https://google.serper.dev/search" apiKey
               (searchQuery query0 includeDomains excludeDomains)
               (maxResultsOrDefault maxResults)].
Proof.
  intros Hkey call.
  split; [ | split; [reflexivity | split; [reflexivity | ]]].
  - intros ty. subst call.
    destruct (search_spec apiKey backend schedule query0 maxResults searchDepth
                includeDomains excludeDomains (Some (mkOptions ty (Some []))) Hkey)
      as (r & lg & Hs & Hv & Hi & Hr & Hq & Hn & _ & Hco).
    rewrite Hs. cbn in Hv, Hi, Hr, Hco |- *.
    assert (Hlg : lg = []).
    { destruct lg as [ | entry lg]; [reflexivity | ].
      destruct (Hco entry (or_introl eq_refl)) as (c & Hc & _). discriminate. }
    assert (Hres : results r = []).
    { destruct Hr as [Hr | (Hc & _)]; [exact Hr | discriminate]. }
    rewrite Hres in Hn.
    destruct r; cbn in *; subst. reflexivity.
  - subst call.
    destruct (search_spec apiKey backend schedule query0 maxResults searchDepth
                includeDomains excludeDomains None Hkey)
      as (r & lg & Hs & _).
    rewrite Hs. reflexivity.
Qed.

Lemma empty_content_types_requests_nothing_witness :
  apiKeyMissing (Some "key") = false /\
  search (Some "key") sample_backend [web; news] "rocq" None None None None
         (Some (mkOptions (Some general) (Some []))) =
    mkOutcome (Returns (mkSearchResults [] [] [] "rocq" 0)) [] [].
Proof.
  split; [reflexivity | ].
  apply (proj1 (empty_content_types_requests_nothing (Some "key") sample_backend
                  [web; news] "rocq" None None None None eq_refl)).
Defined.

(** C3, where it breaks.  Web and news are requested, the web endpoint
    returns two organic items and the news endpoint one item, and the news
    reply is handled before the web reply: the web handler's assignment
    overwrites the appended news item, and the answer holds the two web
    items only. *)
Theorem news_lost_when_news_is_answered_first :
  search (Some "key") sample_backend [news; news] "rocq" None None None None
         web_and_news =
    mkOutcome
      (Returns
         (mkSearchResults
            [SearchResultItem.mk (VStr "w1") (VStr "https://w1") (VStr "first");
             SearchResultItem.mk (VStr "w2") (VStr "https://w2") (VStr "second")]
            [] [] "rocq" 2))
      []
      [mkRequest "https://google.serper.dev/search" (Some "key") "rocq" 10;
       mkRequest "https://google.serper.dev/news" (Some "key") "rocq" 10].
Proof. vm_compute. reflexivity. Qed.

(** The same call when the web reply is handled first. *)
Example news_appended_when_web_is_answered_first :
  search (Some "key") sample_backend [web; web] "rocq" None None None None
         web_and_news =
    mkOutcome
      (Returns
         (mkSearchResults
            [SearchResultItem.mk (VStr "w1") (VStr "https://w1") (VStr "first");
             SearchResultItem.mk (VStr "w2") (VStr "https://w2") (VStr "second");
             SearchResultItem.mk (VStr "n1") (VStr "https://n1") (VStr "headline")]
            [] [] "rocq" 3))
      []
      [mkRequest "https://google.serper.dev/search" (Some "key") "rocq" 10;
       mkRequest "https://google.serper.dev/news" (Some "key") "rocq" 10].
Proof. vm_compute. reflexivity. Qed.

(** * Further properties of the provider *)

(** ** Normalisation *)

Lemma getProp_not_null (v : JSON) (k : string) :
  v <> JNull -> exists x, getProp v k = inr x.
Proof.
  destruct v; simpl; intros H; try (eexists; reflexivity).
  - congruence.
  - destruct (String.eqb k "link"); eexists; reflexivity.
  - destruct (assoc k fields); eexists; reflexivity.
Qed.

Ltac read_props x H :=
  repeat match goal with
         | |- context [getProp x ?k] =>
             let v := fresh "v" in
             let E := fresh "E" in
             destruct (getProp_not_null x k H) as [v E]; rewrite E; simpl
         end.

Lemma webItem_throws_on_null_only : throws_on_null_only webItem.
Proof.
  intros x i. split.
  - intros [y Hy] ->. discriminate.
  - intros H. unfold webItem. read_props x H. eexists; reflexivity.
Qed.

Lemma newsItem_throws_on_null_only : throws_on_null_only newsItem.
Proof.
  intros x i. split.
  - intros [y Hy] ->. discriminate.
  - intros H. unfold newsItem. read_props x H. eexists; reflexivity.
Qed.

Lemma videoItem_throws_on_null_only : throws_on_null_only videoItem.
Proof.
  intros x i. split.
  - intros [y Hy] ->. discriminate.
  - intros H. unfold videoItem. read_props x H. eexists; reflexivity.
Qed.

Lemma imageItem_throws_on_null_only : throws_on_null_only imageItem.
Proof.
  intros x i. split.
  - intros [y Hy] ->. discriminate.
  - intros H. unfold imageItem. read_props x H. eexists; reflexivity.
Qed.

Lemma slice0_nil {A} (n : Z) : slice0 (@nil A) n = [].
Proof. unfold slice0. destruct (n <? 0)%Z; apply firstn_nil. Qed.

(** A falsy field is read as the empty array. *)
Lemma sliceItems_falsy (v : Value) (n : Z) :
  truthy v = false -> sliceItems v n = inr [].
Proof.
  intros H. unfold sliceItems, or_else. rewrite H. unfold ret. now rewrite slice0_nil.
Qed.

Section NullOnly.

Context {B : Type}.
Variable f : JSON -> nat -> Exc B.
Hypothesis Hf : throws_on_null_only f.

(** [map] goes through exactly when no item it visits is [null]. *)
Lemma mapIndexFrom_ok_iff (l : list JSON) :
  forall i, (exists ys, mapIndexFrom f i l = inr ys) <-> ~ In JNull l.
Proof.
  induction l as [ | x rest IH]; intros i; simpl.
  - split; [tauto | intros _; eexists; reflexivity].
  - split.
    + intros [ys H] Hin.
      destruct (f x i) as [e | y] eqn:Ef; simpl in H; [discriminate | ].
      destruct (mapIndexFrom f (S i) rest) as [e | ys'] eqn:E; simpl in H; [discriminate | ].
      destruct Hin as [-> | Hin].
      * apply (proj1 (Hf JNull i)); eauto.
      * apply (proj1 (IH (S i))); eauto.
    + intros Hno.
      destruct (proj2 (Hf x i)) as [y Hy]; [intros ->; tauto | ].
      destruct (proj2 (IH (S i))) as [ys Hys]; [tauto | ].
      rewrite Hy, Hys. simpl. eexists; reflexivity.
Qed.

(** The normalisation of an object reply goes through exactly when the
    field it reads is missing, falsy, or an array without [null] among the
    items within the cap. *)
Lemma normalise_ok_iff (key : string) (fields : list (string * JSON)) (maxResults : Z) :
  (exists out,
      bind (getProp (JObj fields) key)
           (fun v => bind (sliceItems v maxResults) (fun items => mapIndex f items)) = inr out)
  <-> field_ok (assoc key fields) maxResults.
Proof.
  rewrite getProp_object. unfold field_ok.
  destruct (assoc key fields) as [v | ]; cbn [bind].
  - destruct (truthy (VJson v)) eqn:Ht.
    + destruct v as [ | b | n | s | l | fs];
        try (unfold sliceItems, or_else; rewrite Ht; simpl;
             simpl in Ht;
             split; [intros [? H]; discriminate | intros [H | (l' & H & _)]; congruence]).
      unfold sliceItems, or_else. rewrite Ht. simpl.
      split.
      * intros [out H]. right. exists l. split; [reflexivity | ].
        apply (proj1 (mapIndexFrom_ok_iff _ 0)). exists out. exact H.
      * intros [H | (l' & H & Hno)]; [discriminate | ]. inversion H; subst.
        apply (proj2 (mapIndexFrom_ok_iff _ 0)) in Hno. exact Hno.
    + rewrite (sliceItems_falsy _ _ Ht). simpl.
      split; [auto | intros _; eexists; reflexivity].
  - rewrite sliceItems_falsy by reflexivity. simpl.
    split; [auto | intros _; eexists; reflexivity].
Qed.

End NullOnly.

(** X1. Success of a category.  For a reply that is a JSON object, each
    category's normalisation goes through exactly when the field it reads
    is missing, falsy, or an array with no [null] among its first
    [maxResults] items; a [null] beyond the cap is never looked at. *)
Theorem normalisation_succeeds_iff_field_ok
        (fields : list (string * JSON)) (maxResults : Z) :
  ((exists items, webItems (JObj fields) maxResults = inr items)
   <-> field_ok (assoc "organic" fields) maxResults) /\
  ((exists items, videoItems (JObj fields) maxResults = inr items)
   <-> field_ok (assoc "videos" fields) maxResults) /\
  ((exists items, imageItems (JObj fields) maxResults = inr items)
   <-> field_ok (assoc "images" fields) maxResults) /\
  ((exists items, newsItems (JObj fields) maxResults = inr items)
   <-> field_ok (assoc "news" fields) maxResults).
Proof.
  repeat split.
  - apply (normalise_ok_iff webItem webItem_throws_on_null_only "organic").
  - apply (normalise_ok_iff webItem webItem_throws_on_null_only "organic").
  - apply (normalise_ok_iff videoItem videoItem_throws_on_null_only "videos").
  - apply (normalise_ok_iff videoItem videoItem_throws_on_null_only "videos").
  - apply (normalise_ok_iff imageItem imageItem_throws_on_null_only "images").
  - apply (normalise_ok_iff imageItem imageItem_throws_on_null_only "images").
  - apply (normalise_ok_iff newsItem newsItem_throws_on_null_only "news").
  - apply (normalise_ok_iff newsItem newsItem_throws_on_null_only "news").
Qed.

Lemma nth_error_firstn_some {A} (n : nat) (l : list A) (i : nat) (x : A) :
  nth_error (firstn n l) i = Some x -> nth_error l i = Some x.
Proof.
  revert l i. induction n as [ | n IH]; intros l i; simpl.
  - destruct i; discriminate.
  - destruct l as [ | y l]; simpl; [destruct i; discriminate | ].
    destruct i as [ | i]; simpl; auto.
Qed.

Lemma nth_error_slice0 {A} (l : list A) (n : Z) (i : nat) (x : A) :
  nth_error (slice0 l n) i = Some x -> nth_error l i = Some x.
Proof. unfold slice0. destruct (n <? 0)%Z; apply nth_error_firstn_some. Qed.

Lemma slice0_length_exact {A} (l : list A) (n : Z) :
  ((0 <= n)%Z -> length (slice0 l n) = Nat.min (Z.to_nat n) (length l)) /\
  ((n < 0)%Z -> length (slice0 l n) = Z.to_nat (Z.of_nat (length l) + n)).
Proof.
  unfold slice0. split; intros H.
  - destruct (n <? 0)%Z eqn:E; [apply Z.ltb_lt in E; lia | ]. apply length_firstn.
  - destruct (n <? 0)%Z eqn:E; [ | apply Z.ltb_ge in E; lia].
    rewrite length_firstn. lia.
Qed.

(** The normalisation of an array field visits the slice of that array. *)
Lemma normalised_from_array {B} (f : JSON -> nat -> Exc B) (key : string)
      (fields : list (string * JSON)) (l : list JSON) (maxResults : Z) (out : list B) :
  assoc key fields = Some (JArr l) ->
  bind (getProp (JObj fields) key)
       (fun v => bind (sliceItems v maxResults) (fun items => mapIndex f items)) = inr out ->
  mapIndexFrom f 0 (slice0 l maxResults) = inr out.
Proof.
  intros Hk. rewrite getProp_object, Hk. cbn. auto.
Qed.

(** X2. The count.  When a category's field is an array and its
    normalisation goes through, the number of items is the length of the
    array capped at [maxResults]; a negative [maxResults] drops that many
    items from the end instead. *)
Theorem items_count_is_capped_length
        (c : Category) (fields : list (string * JSON)) (l : list JSON)
        (maxResults : Z) (n : nat) :
  assoc (category_key c) fields = Some (JArr l) ->
  items_count c (JObj fields) maxResults = inr n ->
  ((0 <= maxResults)%Z -> n = Nat.min (Z.to_nat maxResults) (length l)) /\
  ((maxResults < 0)%Z -> n = Z.to_nat (Z.of_nat (length l) + maxResults)).
Proof.
  intros Hk Hn.
  assert (Hlen : n = length (slice0 l maxResults)).
  { destruct c; simpl in Hk, Hn.
    - destruct (webItems (JObj fields) maxResults) as [e | out] eqn:E; [discriminate | ].
      inversion Hn; subst.
      apply (normalised_from_array webItem "organic" fields l) in E; [ | exact Hk].
      now apply mapIndexFrom_length in E.
    - destruct (videoItems (JObj fields) maxResults) as [e | out] eqn:E; [discriminate | ].
      inversion Hn; subst.
      apply (normalised_from_array videoItem "videos" fields l) in E; [ | exact Hk].
      now apply mapIndexFrom_length in E.
    - destruct (imageItems (JObj fields) maxResults) as [e | out] eqn:E; [discriminate | ].
      inversion Hn; subst.
      apply (normalised_from_array imageItem "images" fields l) in E; [ | exact Hk].
      now apply mapIndexFrom_length in E.
    - destruct (newsItems (JObj fields) maxResults) as [e | out] eqn:E; [discriminate | ].
      inversion Hn; subst.
      apply (normalised_from_array newsItem "news" fields l) in E; [ | exact Hk].
      now apply mapIndexFrom_length in E. }
  subst n. apply slice0_length_exact.
Qed.

Lemma items_count_is_capped_length_witness :
  (0 <= 2)%Z /\ 2 = Nat.min (Z.to_nat 2) (length three_video_items).
Proof.
  split; [lia | ].
  apply (proj1 (items_count_is_capped_length video
                  [("videos", JArr three_video_items)] three_video_items 2 2
                  eq_refl eq_refl)).
  lia.
Defined.

(** X3. The order.  The item at index [i] of a category's normalised list is
    the callback's value on the item at index [i] of the payload's array:
    the cap keeps a prefix and the order of the payload. *)
Theorem normalised_items_follow_payload_order
        (fields : list (string * JSON)) (l : list JSON) (maxResults : Z) (i : nat) :
  (forall items item,
      assoc "organic" fields = Some (JArr l) ->
      webItems (JObj fields) maxResults = inr items ->
      nth_error items i = Some item ->
      exists raw, nth_error l i = Some raw /\ webItem raw i = inr item) /\
  (forall items item,
      assoc "videos" fields = Some (JArr l) ->
      videoItems (JObj fields) maxResults = inr items ->
      nth_error items i = Some item ->
      exists raw, nth_error l i = Some raw /\ videoItem raw i = inr item) /\
  (forall items item,
      assoc "images" fields = Some (JArr l) ->
      imageItems (JObj fields) maxResults = inr items ->
      nth_error items i = Some item ->
      exists raw, nth_error l i = Some raw /\ imageItem raw i = inr item) /\
  (forall items item,
      assoc "news" fields = Some (JArr l) ->
      newsItems (JObj fields) maxResults = inr items ->
      nth_error items i = Some item ->
      exists raw, nth_error l i = Some raw /\ newsItem raw i = inr item).
Proof.
  repeat split; intros items item Hk H Hn.
  - apply (normalised_from_array webItem "organic" fields l) in H; [ | exact Hk].
    destruct (mapIndexFrom_nth _ _ _ _ _ _ H Hn) as (raw & Hr & Hf).
    exists raw. split; [now apply nth_error_slice0 in Hr | exact Hf].
  - apply (normalised_from_array videoItem "videos" fields l) in H; [ | exact Hk].
    destruct (mapIndexFrom_nth _ _ _ _ _ _ H Hn) as (raw & Hr & Hf).
    exists raw. split; [now apply nth_error_slice0 in Hr | exact Hf].
  - apply (normalised_from_array imageItem "images" fields l) in H; [ | exact Hk].
    destruct (mapIndexFrom_nth _ _ _ _ _ _ H Hn) as (raw & Hr & Hf).
    exists raw. split; [now apply nth_error_slice0 in Hr | exact Hf].
  - apply (normalised_from_array newsItem "news" fields l) in H; [ | exact Hk].
    destruct (mapIndexFrom_nth _ _ _ _ _ _ H Hn) as (raw & Hr & Hf).
    exists raw. split; [now apply nth_error_slice0 in Hr | exact Hf].
Qed.

Lemma normalised_items_follow_payload_order_witness :
  exists raw,
    nth_error three_video_items 1 = Some raw /\
    videoItem raw 1 =
      inr (nth 1 (items_or_nil (videoItems (JObj [("videos", JArr three_video_items)]) 2))
               (SerperSearchResultItem.mk VUndefined VUndefined VUndefined VUndefined
                  VUndefined VUndefined VUndefined VUndefined 0)).
Proof.
  apply (proj1 (proj2 (normalised_items_follow_payload_order
                         [("videos", JArr three_video_items)] three_video_items 2 1))
           (items_or_nil (videoItems (JObj [("videos", JArr three_video_items)]) 2)));
    reflexivity.
Defined.

Lemma coalesce_field (fields : list (string * JSON)) (k fallback : string) :
  coalesce match assoc k fields with
           | Some x => VJson x
           | None => VUndefined
           end (VStr fallback) = field_or fields k fallback.
Proof.
  unfold field_or, coalesce.
  destruct (assoc k fields) as [v | ]; [destruct v | ]; reflexivity.
Qed.

(** X4. Video fields use [??].  A video item that is an object keeps every
    field that is present and not [null], the empty string, [0] and [false]
    included; only a missing or [null] field gets its default, and
    [position] is the index. *)
Theorem video_fields_default_only_when_nullish
        (fields : list (string * JSON)) (index : nat) :
  videoItem (JObj fields) index =
    inr (SerperSearchResultItem.mk
           (field_or fields "title" "No title")
           (field_or fields "link" EmptyString)
           (field_or fields "snippet" "No description available")
           (field_or fields "imageUrl" EmptyString)
           (field_or fields "duration" EmptyString)
           (field_or fields "source" EmptyString)
           (field_or fields "channel" EmptyString)
           (field_or fields "date" EmptyString)
           index).
Proof.
  unfold videoItem. rewrite !getProp_object. cbn [bind ret].
  now rewrite !coalesce_field.
Qed.

Lemma video_fields_default_only_when_nullish_witness :
  exists item,
    videoItem (JObj video_with_empty_title) 4 = inr item /\
    SerperSearchResultItem.title item = VStr EmptyString /\
    SerperSearchResultItem.link item = VStr EmptyString /\
    SerperSearchResultItem.duration item = VJson (JNum 0) /\
    SerperSearchResultItem.snippet item = VStr "No description available" /\
    SerperSearchResultItem.position item = 4.
Proof.
  eexists. split.
  - apply (video_fields_default_only_when_nullish video_with_empty_title 4).
  - repeat split.
Defined.

Lemma or_else_truthy (a fallback : Value) :
  truthy fallback = true -> truthy (or_else a fallback) = true.
Proof. unfold or_else. destruct (truthy a) eqn:E; auto. Qed.

Lemma or_else_truthy_or_fallback (a fallback : Value) :
  truthy (or_else a fallback) = true \/ or_else a fallback = fallback.
Proof. unfold or_else. destruct (truthy a) eqn:E; auto. Qed.

Lemma coalesce_not_nullish (a fallback : Value) :
  nullish fallback = false -> nullish (coalesce a fallback) = false.
Proof. unfold coalesce. destruct (nullish a) eqn:E; auto. Qed.

(** Whatever the raw item is, a normalised web or news item has a truthy
    [title] and [content]; a normalised image has a truthy [title], and its
    [link] and [thumbnailUrl] are truthy or the empty string; no field of a
    normalised video is [undefined] or [null]. *)
Lemma webItem_ok (raw : JSON) (index : nat) (item : SearchResultItem.t) :
  webItem raw index = inr item -> web_item_ok item.
Proof.
  intros Hw. unfold webItem in Hw.
  destruct (getProp raw "title"); simpl in Hw; [discriminate | ].
  destruct (getProp raw "link"); simpl in Hw; [discriminate | ].
  destruct (getProp raw "snippet"); simpl in Hw; [discriminate | ].
  inversion Hw; subst. split; simpl; now apply or_else_truthy.
Qed.

Lemma newsItem_ok (raw : JSON) (index : nat) (item : SearchResultItem.t) :
  newsItem raw index = inr item -> web_item_ok item.
Proof. apply webItem_ok. Qed.

Lemma imageItem_ok (raw : JSON) (index : nat) (item : SearchImageItem.t) :
  imageItem raw index = inr item -> image_item_ok item.
Proof.
  intros H. unfold imageItem in H.
  destruct (getProp raw "title"); simpl in H; [discriminate | ].
  destruct (getProp raw "link"); simpl in H; [discriminate | ].
  destruct (getProp raw "thumbnailUrl"); simpl in H; [discriminate | ].
  destruct (getProp raw "imageUrl"); simpl in H; [discriminate | ].
  inversion H; subst. unfold image_item_ok. simpl.
  split; [now apply or_else_truthy | ].
  split; apply or_else_truthy_or_fallback.
Qed.

Lemma videoItem_ok (raw : JSON) (index : nat) (item : SerperSearchResultItem.t) :
  videoItem raw index = inr item ->
  video_item_ok item /\ SerperSearchResultItem.position item = index.
Proof.
  intros H. unfold videoItem in H.
  destruct (getProp raw "title"); simpl in H; [discriminate | ].
  destruct (getProp raw "link"); simpl in H; [discriminate | ].
  destruct (getProp raw "snippet"); simpl in H; [discriminate | ].
  destruct (getProp raw "imageUrl"); simpl in H; [discriminate | ].
  destruct (getProp raw "duration"); simpl in H; [discriminate | ].
  destruct (getProp raw "source"); simpl in H; [discriminate | ].
  destruct (getProp raw "channel"); simpl in H; [discriminate | ].
  destruct (getProp raw "date"); simpl in H; [discriminate | ].
  inversion H; subst. unfold video_item_ok. simpl.
  repeat split; now apply coalesce_not_nullish.
Qed.

(** X5. Replies that are not objects.  A body that parses to [null] makes
    every category's normalisation throw a TypeError; a body that parses to
    a boolean, a number, a string or an array is read as a reply without
    items. *)
Theorem non_object_reply_is_failure_or_empty (data : JSON) (maxResults : Z) :
  (data = JNull ->
   is_inl (webItems data maxResults) = true /\
   is_inl (videoItems data maxResults) = true /\
   is_inl (imageItems data maxResults) = true /\
   is_inl (newsItems data maxResults) = true) /\
  (data <> JNull -> (forall fields, data <> JObj fields) ->
   webItems data maxResults = inr [] /\
   videoItems data maxResults = inr [] /\
   imageItems data maxResults = inr [] /\
   newsItems data maxResults = inr []).
Proof.
  split.
  - intros ->. repeat split.
  - intros Hnull Hobj.
    unfold webItems, videoItems, imageItems, newsItems.
    destruct data; try congruence;
      try (cbn [getProp bind ret]; rewrite sliceItems_falsy by reflexivity;
           repeat split).
    cbn. rewrite slice0_nil. repeat split.
Qed.

Lemma non_object_reply_is_failure_or_empty_witness :
  JArr [JNull] <> JNull /\
  (forall fields, JArr [JNull] <> JObj fields) /\
  videoItems (JArr [JNull]) 10 = inr [].
Proof.
  assert (H1 : JArr [JNull] <> JNull) by discriminate.
  assert (H2 : forall fields, JArr [JNull] <> JObj fields) by discriminate.
  split; [exact H1 | ]. split; [exact H2 | ].
  apply (proj2 (non_object_reply_is_failure_or_empty (JArr [JNull]) 10) H1 H2).
Defined.

(** ** Query rewriting *)

Lemma contains_refl (s : string) : contains s s.
Proof. exists EmptyString, EmptyString. simpl. now rewrite append_empty_r. Qed.

Lemma contains_prepend (a s x : string) : contains s x -> contains (a +++ s) x.
Proof.
  intros (before & after & ->). exists (a +++ before), after.
  now rewrite append_assoc.
Qed.

Lemma contains_append (s b x : string) : contains s x -> contains (s +++ b) x.
Proof.
  intros (before & after & ->). exists before, (after +++ b).
  now rewrite !append_assoc.
Qed.

(** [l.map(f).join(sep)] holds [f d] for every [d] of [l]. *)
Lemma join_contains (sep : string) (f : string -> string) (l : list string) (d : string) :
  In d l -> contains (String.concat sep (map f l)) (f d).
Proof.
  induction l as [ | x l IH]; [intros [] | ].
  intros Hin. destruct l as [ | y l].
  - destruct Hin as [-> | []]. apply contains_refl.
  - change (String.concat sep (map f (x :: y :: l)))
      with (f x +++ sep +++ String.concat sep (map f (y :: l))).
    destruct Hin as [-> | Hin].
    + apply contains_append, contains_refl.
    + now apply contains_prepend, contains_prepend, IH.
Qed.

(** X6. Any number of domains.  The sent query starts with the caller's
    query; it holds "site:d" for every included domain and "-site:d" for
    every excluded one; and it is the caller's query itself when both lists
    are missing or empty. *)
Theorem every_domain_filter_is_in_the_sent_query
        (query0 : string) (includeDomains excludeDomains : option (list string)) :
  let sq := searchQuery query0 includeDomains excludeDomains in
  (exists suffix, sq = query0 +++ suffix) /\
  (forall l d, includeDomains = Some l -> In d l -> contains sq ("site:" +++ d)) /\
  (forall l d, excludeDomains = Some l -> In d l -> contains sq ("-site:" +++ d)) /\
  ((includeDomains = None \/ includeDomains = Some []) ->
   (excludeDomains = None \/ excludeDomains = Some []) ->
   sq = query0).
Proof.
  intros sq. subst sq. unfold searchQuery.
  split; [ | split; [ | split]].
  - destruct includeDomains as [[ | a inc] | ], excludeDomains as [[ | b exc] | ];
      rewrite ?append_assoc;
      try (eexists; reflexivity);
      exists EmptyString; now rewrite append_empty_r.
  - intros l d -> Hin.
    destruct l as [ | a inc]; [destruct Hin | ].
    pose proof (join_contains " OR " (fun domain => "site:" +++ domain) (a :: inc) d Hin)
      as Hc.
    destruct excludeDomains as [[ | b exc] | ];
      [ | apply contains_append | ];
      apply contains_prepend, contains_prepend, contains_append; exact Hc.
  - intros l d -> Hin.
    destruct l as [ | b exc]; [destruct Hin | ].
    pose proof (join_contains " " (fun domain => "-site:" +++ domain) (b :: exc) d Hin)
      as Hc.
    apply contains_prepend, contains_prepend. exact Hc.
  - intros [-> | ->] [-> | ->]; reflexivity.
Qed.

Lemma every_domain_filter_is_in_the_sent_query_witness :
  In "c.org" ["a.org"; "b.org"; "c.org"] /\
  contains (searchQuery "rocq" (Some ["a.org"; "b.org"; "c.org"]) (Some ["x.org"; "y.org"]))
           "site:c.org".
Proof.
  assert (H : In "c.org" ["a.org"; "b.org"; "c.org"]) by (simpl; auto).
  split; [exact H | ].
  apply (proj1 (proj2 (every_domain_filter_is_in_the_sent_query "rocq"
                         (Some ["a.org"; "b.org"; "c.org"]) (Some ["x.org"; "y.org"])))
           ["a.org"; "b.org"; "c.org"] "c.org" eq_refl H).
Defined.

(** ** The answer of [search] *)

Lemma search_returns (apiKey : option string) (backend : Backend)
      (schedule : list Category) (query0 : string) (maxResults : option Z)
      (searchDepth : option SearchDepth)
      (includeDomains excludeDomains : option (list string))
      (options : option Options) :
  apiKeyMissing apiKey = false ->
  exists r,
    completion (search apiKey backend schedule query0 maxResults searchDepth
                       includeDomains excludeDomains options) = Returns r.
Proof.
  intros Hkey.
  destruct (search_spec apiKey backend schedule query0 maxResults searchDepth
              includeDomains excludeDomains options Hkey) as (r & lg & Hs & _).
  exists r. now rewrite Hs.
Qed.

Lemma search_news_last_witness :
  apiKeyMissing (Some "key") = false /\
  ~ In news [web; image; web] /\
  exists r,
    completion (search (Some "key") sample_backend [web; image; web] "rocq" None None
                       None None all_categories) = Returns r /\
    length (results r) = 3.
Proof.
  assert (Hno : ~ In news [web; image; web])
    by (simpl; intros [H | [H | [H | []]]]; discriminate).
  split; [reflexivity | ]. split; [exact Hno | ].
  destruct (search_news_last (Some "key") sample_backend [web; image; web] "rocq"
              None None None None all_categories eq_refl Hno) as (r & Hr & Hres).
  exists r. split; [exact Hr | ]. rewrite Hres. reflexivity.
Defined.

(** X8. What the race can do.  Whatever the order of the replies, [results]
    is either the web items followed by the news items, or — only when the
    web category was requested and went through — the web items alone.
    News items never come before web items and are never kept in part. *)
Theorem results_are_web_then_news_or_web_alone
        (apiKey : option string) (backend : Backend) (schedule : list Category)
        (query0 : string) (maxResults : option Z) (searchDepth : option SearchDepth)
        (includeDomains excludeDomains : option (list string))
        (options : option Options) :
  apiKeyMissing apiKey = false ->
  let mr := maxResultsOrDefault maxResults in
  let sq := searchQuery query0 includeDomains excludeDomains in
  let cts := contentTypesOf options in
  let W := contribution cts web (web_result apiKey backend sq mr) in
  let N := contribution cts news (news_result apiKey backend sq mr) in
  exists r,
    completion (search apiKey backend schedule query0 maxResults searchDepth
                       includeDomains excludeDomains options) = Returns r /\
    (results r = W ++ N \/
     (includes cts web = true /\ failed apiKey backend sq mr web = false /\
      results r = W)).
Proof.
  intros Hkey mr sq cts W N.
  destruct (search_spec apiKey backend schedule query0 maxResults searchDepth
              includeDomains excludeDomains options Hkey)
    as (r & lg & Hs & _ & _ & Hr & _).
  exists r. rewrite Hs. split; [reflexivity | exact Hr].
Qed.

Lemma results_are_web_then_news_or_web_alone_witness :
  apiKeyMissing (Some "key") = false /\
  exists r,
    completion (search (Some "key") sample_backend [news; web; news] "rocq" None None
                       None None web_and_news) = Returns r /\
    (length (results r) = 3 \/ length (results r) = 2).
Proof.
  split; [reflexivity | ].
  destruct (results_are_web_then_news_or_web_alone (Some "key") sample_backend
              [news; web; news] "rocq" None None None None web_and_news eq_refl)
    as (r & Hr & [H | (_ & _ & H)]);
    exists r; (split; [exact Hr | ]); rewrite H; [left | right]; reflexivity.
Defined.

(** X9. When the order of the replies does not matter.  If the web category
    is not requested or fails, or the news category contributes nothing,
    two calls that differ in the order of the replies only return the same
    [SearchResults]. *)
Theorem answer_independent_of_reply_order_without_web_news_pair
        (apiKey : option string) (backend : Backend) (schedule1 schedule2 : list Category)
        (query0 : string) (maxResults : option Z) (searchDepth : option SearchDepth)
        (includeDomains excludeDomains : option (list string))
        (options : option Options) :
  apiKeyMissing apiKey = false ->
  let mr := maxResultsOrDefault maxResults in
  let sq := searchQuery query0 includeDomains excludeDomains in
  let cts := contentTypesOf options in
  includes cts web = false \/ failed apiKey backend sq mr web = true \/
  contribution cts news (news_result apiKey backend sq mr) = [] ->
  completion (search apiKey backend schedule1 query0 maxResults searchDepth
                     includeDomains excludeDomains options) =
  completion (search apiKey backend schedule2 query0 maxResults searchDepth
                     includeDomains excludeDomains options).
Proof.
  intros Hkey mr sq cts Hcase.
  destruct (search_spec apiKey backend schedule1 query0 maxResults searchDepth
              includeDomains excludeDomains options Hkey)
    as (r1 & lg1 & Hs1 & Hv1 & Hi1 & Hr1 & Hq1 & Hn1 & _).
  destruct (search_spec apiKey backend schedule2 query0 maxResults searchDepth
              includeDomains excludeDomains options Hkey)
    as (r2 & lg2 & Hs2 & Hv2 & Hi2 & Hr2 & Hq2 & Hn2 & _).
  rewrite Hs1, Hs2. cbn [completion]. f_equal.
  fold mr sq cts in Hv1, Hi1, Hr1, Hv2, Hi2, Hr2.
  assert (Hres : forall l,
             results_ok apiKey backend sq mr cts true true l ->
             l = contribution cts web (web_result apiKey backend sq mr) ++
                 contribution cts news (news_result apiKey backend sq mr)).
  { intros l [H | (Ha & Hf & H)]; [exact H | ].
    destruct Hcase as [Hc | [Hc | Hc]]; try congruence.
    rewrite Hc, app_nil_r. exact H. }
  apply Hres in Hr1, Hr2.
  destruct r1, r2; cbn in *. congruence.
Qed.

Lemma answer_independent_of_reply_order_without_web_news_pair_witness :
  apiKeyMissing (Some "key") = false /\
  completion (search (Some "key") failing_backend [news; news; image] "rocq" None None
                     None None
                     (Some (mkOptions None (Some [video; image; news])))) =
  completion (search (Some "key") failing_backend [video; image; video] "rocq" None None
                     None None
                     (Some (mkOptions None (Some [video; image; news])))).
Proof.
  split; [reflexivity | ].
  apply (answer_independent_of_reply_order_without_web_news_pair (Some "key")
           failing_backend [news; news; image] [video; image; video] "rocq" None None
           None None (Some (mkOptions None (Some [video; image; news]))) eq_refl).
  left. reflexivity.
Defined.

(** X10. [content_types] is read as a set.  Two lists that request the same
    categories, in any order and with any repetition, give the same call:
    same answer, same console, same requests. *)
Theorem content_types_order_and_repeats_do_not_matter
        (apiKey : option string) (backend : Backend) (schedule : list Category)
        (query0 : string) (maxResults : option Z) (searchDepth : option SearchDepth)
        (includeDomains excludeDomains : option (list string))
        (ty1 ty2 : option SearchType) (cts1 cts2 : list Category) :
  (forall c, includes cts1 c = includes cts2 c) ->
  search apiKey backend schedule query0 maxResults searchDepth
         includeDomains excludeDomains (Some (mkOptions ty1 (Some cts1))) =
  search apiKey backend schedule query0 maxResults searchDepth
         includeDomains excludeDomains (Some (mkOptions ty2 (Some cts2))).
Proof.
  intros H. unfold search, call_if. cbn [contentTypesOf content_types].
  now rewrite (H web), (H video), (H image), (H news).
Qed.

Lemma content_types_order_and_repeats_do_not_matter_witness :
  (forall c, includes [news; web; news; web] c = includes [web; news] c) /\
  search (Some "key") sample_backend [web] "rocq" None None None None
         (Some (mkOptions None (Some [news; web; news; web]))) =
  search (Some "key") sample_backend [web] "rocq" None None None None
         (Some (mkOptions (Some general) (Some [web; news]))).
Proof.
  assert (H : forall c, includes [news; web; news; web] c = includes [web; news] c)
    by (intros c; destruct c; reflexivity).
  split; [exact H | ].
  apply (content_types_order_and_repeats_do_not_matter (Some "key") sample_backend [web]
           "rocq" None None None None None (Some general) _ _ H).
Defined.

(** ** Console and requests *)



(** X12. The news handler on a status that is not a success.  It logs the
    "failed" line and returns; unlike the web handler, which throws into its
    own [catch] and logs an "error" line as well, it logs no "error" line. *)
Theorem news_logs_failed_line_only_on_bad_status
        (apiKey : option string) (backend : Backend) (schedule : list Category)
        (query0 : string) (maxResults : option Z) (searchDepth : option SearchDepth)
        (includeDomains excludeDomains : option (list string))
        (options : option Options) :
  apiKeyMissing apiKey = false ->
  let mr := maxResultsOrDefault maxResults in
  let sq := searchQuery query0 includeDomains excludeDomains in
  let cts := contentTypesOf options in
  let lg := logged (search apiKey backend schedule query0 maxResults searchDepth
                           includeDomains excludeDomains options) in
  (forall response,
      includes cts news = true ->
      reply apiKey backend sq mr news = FetchResolves response ->
      ok response = false ->
      In (Log ("Serper news search failed: " +++ statusText response)) lg /\
      forall e, ~ In (LogError "Serper news search error:" e) lg) /\
  (forall response,
      includes cts web = true ->
      reply apiKey backend sq mr web = FetchResolves response ->
      ok response = false ->
      In (Log ("Serper web search failed: " +++ statusText response)) lg /\
      In (LogError "Serper web search error:" (Error "Search failed")) lg).
Proof.
  intros Hkey mr sq cts lg. subst lg.
  destruct (search_spec apiKey backend schedule query0 maxResults searchDepth
              includeDomains excludeDomains options Hkey)
    as (r & lg & Hs & _ & _ & _ & _ & _ & Hlog & Honly).
  fold mr sq cts in Hlog, Honly.
  rewrite Hs. cbn [logged]. split.
  - intros response Hc Hrep Hok. split.
    + apply (Hlog news Hc). unfold failure_log. rewrite Hrep, Hok. left. reflexivity.
    + intros e Hin.
      destruct (Honly _ Hin) as (c & _ & Hc').
      unfold failure_log in Hc'.
      destruct c.
      * destruct (reply apiKey backend sq mr web) as [e' | resp]; simpl in Hc'.
        -- destruct Hc' as [H | []]; discriminate.
        -- destruct (ok resp); [destruct (json resp) as [e' | data] | ]; simpl in Hc'.
           ++ destruct Hc' as [H | []]; discriminate.
           ++ destruct (webItems data mr); simpl in Hc';
                [destruct Hc' as [H | []]; discriminate | destruct Hc'].
           ++ destruct Hc' as [H | [H | []]]; discriminate.
      * destruct (reply apiKey backend sq mr video) as [e' | resp]; simpl in Hc'.
        -- destruct Hc' as [H | []]; discriminate.
        -- destruct (ok resp); [destruct (json resp) as [e' | data] | ]; simpl in Hc'.
           ++ destruct Hc' as [H | []]; discriminate.
           ++ destruct (videoItems data mr); simpl in Hc';
                [destruct Hc' as [H | []]; discriminate | destruct Hc'].
           ++ destruct Hc' as [H | [H | []]]; discriminate.
      * destruct (reply apiKey backend sq mr image) as [e' | resp]; simpl in Hc'.
        -- destruct Hc' as [H | []]; discriminate.
        -- destruct (ok resp); [destruct (json resp) as [e' | data] | ]; simpl in Hc'.
           ++ destruct Hc' as [H | []]; discriminate.
           ++ destruct (imageItems data mr); simpl in Hc';
                [destruct Hc' as [H | []]; discriminate | destruct Hc'].
           ++ destruct Hc' as [H | [H | []]]; discriminate.
      * rewrite Hrep, Hok in Hc'. destruct Hc' as [H | []]. discriminate.
  - intros response Hc Hrep Hok.
    pose proof (Hlog web Hc) as Hin. unfold failure_log in Hin.
    rewrite Hrep, Hok in Hin.
    split; apply Hin; simpl; auto.
Qed.


Lemma news_logs_failed_line_only_on_bad_status_witness :
  apiKeyMissing (Some "key") = false /\
  let lg := logged (search (Some "key") unavailable_backend [web; news] "rocq" None None
                           None None web_and_news) in
  In (Log "Serper news search failed: Service Unavailable") lg /\
  (forall e, ~ In (LogError "Serper news search error:" e) lg) /\
  In (LogError "Serper web search error:" (Error "Search failed")) lg.
Proof.
  split; [reflexivity | ].
  destruct (news_logs_failed_line_only_on_bad_status (Some "key") unavailable_backend
              [web; news] "rocq" None None None None web_and_news eq_refl) as [Hn Hw].
  destruct (Hn (mkResponse false "Service Unavailable" (JsonResolves JNull))
              eq_refl eq_refl eq_refl) as [H1 H2].
  destruct (Hw (mkResponse false "Service Unavailable" (JsonResolves JNull))
              eq_refl eq_refl eq_refl) as [_ H3].
  split; [exact H1 | ]. split; [exact H2 | exact H3].
Defined.

(** ** Sizes *)

Lemma normalised_length_le {B} (f : JSON -> nat -> Exc B) (key : string)
      (data : JSON) (maxResults : Z) (out : list B) :
  (0 <= maxResults)%Z ->
  bind (getProp data key)
       (fun v => bind (sliceItems v maxResults) (fun items => mapIndex f items)) = inr out ->
  (Z.of_nat (length out) <= maxResults)%Z.
Proof.
  intros Hn H. apply normalised_from_slice in H.
  destruct H as (v & items & _ & Hs & Hm).
  rewrite (mapIndexFrom_length _ _ _ _ Hm).
  eapply sliceItems_length; eauto.
Qed.

Lemma contribution_length_le {B} (f : JSON -> nat -> Exc B) (key : string)
      (cts : list Category) (c : Category) (o : FetchOutcome) (maxResults : Z) :
  (0 <= maxResults)%Z ->
  (Z.of_nat (length (contribution cts c
       (bind (payload o)
             (fun data => bind (getProp data key)
                (fun v => bind (sliceItems v maxResults)
                               (fun items => mapIndex f items)))))) <= maxResults)%Z.
Proof.
  intros Hn. unfold contribution.
  destruct (includes cts c); [ | simpl; lia].
  destruct (payload o) as [e | data]; simpl; [lia | ].
  destruct (bind (getProp data key) _) as [e | out] eqn:E; simpl; [lia | ].
  now apply (normalised_length_le f key data maxResults out Hn).
Qed.

(** X13. The size of the answer.  For a result cap that is not negative, the
    answer holds at most [maxResults] videos, at most [maxResults] images
    and at most twice [maxResults] results, web and news together. *)
Theorem answer_sizes_are_bounded_by_maxResults
        (apiKey : option string) (backend : Backend) (schedule : list Category)
        (query0 : string) (maxResults : option Z) (searchDepth : option SearchDepth)
        (includeDomains excludeDomains : option (list string))
        (options : option Options) (r : SearchResults) :
  (0 <= maxResultsOrDefault maxResults)%Z ->
  completion (search apiKey backend schedule query0 maxResults searchDepth
                     includeDomains excludeDomains options) = Returns r ->
  (Z.of_nat (length (videos r)) <= maxResultsOrDefault maxResults)%Z /\
  (Z.of_nat (length (images r)) <= maxResultsOrDefault maxResults)%Z /\
  (Z.of_nat (length (results r)) <= 2 * maxResultsOrDefault maxResults)%Z /\
  (Z.of_nat (number_of_results r) <= 2 * maxResultsOrDefault maxResults)%Z.
Proof.
  intros Hn.
  destruct (apiKeyMissing apiKey) eqn:Hkey.
  { unfold search. rewrite Hkey. discriminate. }
  destruct (search_spec apiKey backend schedule query0 maxResults searchDepth
              includeDomains excludeDomains options Hkey)
    as (r' & lg & Hs & Hv & Hi & Hr & _ & Hcount & _).
  rewrite Hs. cbn [completion]. intros H. inversion H; subst r'. clear H.
  set (mr := maxResultsOrDefault maxResults) in *.
  set (sq := searchQuery query0 includeDomains excludeDomains) in *.
  set (cts := contentTypesOf options) in *.
  assert (Lw : (Z.of_nat (length (contribution cts web
                                     (web_result apiKey backend sq mr))) <= mr)%Z)
    by exact (contribution_length_le webItem "organic" cts web
                (reply apiKey backend sq mr web) mr Hn).
  assert (Lv : (Z.of_nat (length (contribution cts video
                                     (video_result apiKey backend sq mr))) <= mr)%Z)
    by exact (contribution_length_le videoItem "videos" cts video
                (reply apiKey backend sq mr video) mr Hn).
  assert (Li : (Z.of_nat (length (contribution cts image
                                     (image_result apiKey backend sq mr))) <= mr)%Z)
    by exact (contribution_length_le imageItem "images" cts image
                (reply apiKey backend sq mr image) mr Hn).
  assert (Ln : (Z.of_nat (length (contribution cts news
                                     (news_result apiKey backend sq mr))) <= mr)%Z)
    by exact (contribution_length_le newsItem "news" cts news
                (reply apiKey backend sq mr news) mr Hn).
  assert (Hres : (Z.of_nat (length (results r)) <= 2 * mr)%Z).
  { destruct Hr as [Hr | (_ & _ & Hr)]; rewrite Hr.
    - rewrite length_app, Nat2Z.inj_add. lia.
    - lia. }
  split; [rewrite Hv; exact Lv | ].
  split; [rewrite Hi; exact Li | ].
  split; [exact Hres | ]. now rewrite Hcount.
Qed.

Lemma answer_sizes_are_bounded_by_maxResults_witness :
  (0 <= maxResultsOrDefault (Some 1%Z))%Z /\
  exists r,
    completion (search (Some "key") sample_backend [] "rocq" (Some 1%Z) None
                       None None all_categories) = Returns r /\
    (Z.of_nat (length (videos r)) <= 1)%Z /\
    (Z.of_nat (length (results r)) <= 2)%Z.
Proof.
  split; [simpl; lia | ].
  destruct (search_returns (Some "key") sample_backend [] "rocq" (Some 1%Z) None
              None None all_categories eq_refl) as [r Hr].
  exists r. split; [exact Hr | ].
  destruct (answer_sizes_are_bounded_by_maxResults (Some "key") sample_backend []
              "rocq" (Some 1%Z) None None None all_categories r
              ltac:(simpl; lia) Hr) as (Hv & _ & Hres & _).
  split; [exact Hv | exact Hres].
Defined.

(** ** Independence of the categories *)

(** X14. [videos] and [images] are private to their category.  Two calls with
    the same key, query, filters and cap whose backends give the same reply
    to the video request, and which both request videos or both do not,
    return the same [videos], whatever the other categories, their replies
    and the order of the replies are; and the same for images. *)
Theorem videos_and_images_depend_on_their_own_reply_only
        (apiKey : option string) (backend1 backend2 : Backend)
        (schedule1 schedule2 : list Category)
        (query0 : string) (maxResults : option Z)
        (searchDepth1 searchDepth2 : option SearchDepth)
        (includeDomains excludeDomains : option (list string))
        (options1 options2 : option Options) (r1 r2 : SearchResults) :
  completion (search apiKey backend1 schedule1 query0 maxResults searchDepth1
                     includeDomains excludeDomains options1) = Returns r1 ->
  completion (search apiKey backend2 schedule2 query0 maxResults searchDepth2
                     includeDomains excludeDomains options2) = Returns r2 ->
  let mr := maxResultsOrDefault maxResults in
  let sq := searchQuery query0 includeDomains excludeDomains in
  (includes (contentTypesOf options1) video = includes (contentTypesOf options2) video ->
   backend1 (request_of apiKey sq mr video) = backend2 (request_of apiKey sq mr video) ->
   videos r1 = videos r2) /\
  (includes (contentTypesOf options1) image = includes (contentTypesOf options2) image ->
   backend1 (request_of apiKey sq mr image) = backend2 (request_of apiKey sq mr image) ->
   images r1 = images r2).
Proof.
  destruct (apiKeyMissing apiKey) eqn:Hkey.
  { unfold search. rewrite Hkey. discriminate. }
  destruct (search_spec apiKey backend1 schedule1 query0 maxResults searchDepth1
              includeDomains excludeDomains options1 Hkey)
    as (r1' & lg1 & Hs1 & Hv1 & Hi1 & _).
  destruct (search_spec apiKey backend2 schedule2 query0 maxResults searchDepth2
              includeDomains excludeDomains options2 Hkey)
    as (r2' & lg2 & Hs2 & Hv2 & Hi2 & _).
  rewrite Hs1, Hs2. cbn [completion].
  intros H1 H2. inversion H1; inversion H2; subst r1' r2'. clear H1 H2.
  split; intros Hc Hb.
  - rewrite Hv1, Hv2. unfold contribution, video_result, reply.
    now rewrite Hc, Hb.
  - rewrite Hi1, Hi2. unfold contribution, image_result, reply.
    now rewrite Hc, Hb.
Qed.

Lemma videos_and_images_depend_on_their_own_reply_only_witness :
  exists r1 r2,
    completion (search (Some "key") sample_backend [news] "rocq" None None None None
                       all_categories) = Returns r1 /\
    completion (search (Some "key") news_down_backend [video; news] "rocq" None
                       (Some basic) None None
                       (Some (mkOptions None (Some [news; video])))) = Returns r2 /\
    videos r1 = videos r2.
Proof.
  destruct (search_returns (Some "key") sample_backend [news] "rocq" None None None None
              all_categories eq_refl) as [r1 H1].
  destruct (search_returns (Some "key") news_down_backend [video; news] "rocq" None
              (Some basic) None None (Some (mkOptions None (Some [news; video])))
              eq_refl) as [r2 H2].
  exists r1, r2. split; [exact H1 | ]. split; [exact H2 | ].
  apply (proj1 (videos_and_images_depend_on_their_own_reply_only (Some "key")
                  sample_backend news_down_backend [news] [video; news] "rocq" None
                  None (Some basic) None None all_categories
                  (Some (mkOptions None (Some [news; video]))) r1 r2 H1 H2));
    reflexivity.
Defined.

(** X15. The requests.  A call with the key configured posts to the endpoint
    of a category exactly when that category is requested, to no endpoint
    twice, so at most four times; every request carries the key and the
    result cap, which is 10 when [maxResults] is omitted. *)
Theorem requests_are_one_per_requested_category
        (apiKey : option string) (backend : Backend) (schedule : list Category)
        (query0 : string) (maxResults : option Z) (searchDepth : option SearchDepth)
        (includeDomains excludeDomains : option (list string))
        (options : option Options) :
  apiKeyMissing apiKey = false ->
  let rq := requests (search apiKey backend schedule query0 maxResults searchDepth
                             includeDomains excludeDomains options) in
  (forall c, In (endpoint_of c) (map endpoint rq) <->
             includes (contentTypesOf options) c = true) /\
  NoDup (map endpoint rq) /\
  length rq <= 4 /\
  Forall (fun request =>
            x_api_key request = apiKey /\
            num request = match maxResults with Some n => n | None => 10%Z end) rq.
Proof.
  intros Hkey rq. subst rq.
  destruct (search_spec apiKey backend schedule query0 maxResults searchDepth
              includeDomains excludeDomains options Hkey) as (r & lg & Hs & _).
  rewrite Hs. cbn [requests]. clear Hs.
  set (cts := contentTypesOf options).
  split; [ | split; [ | split]].
  - intros c. cbn [filter].
    destruct (includes cts web) eqn:Hw, (includes cts video) eqn:Hv,
      (includes cts image) eqn:Hi, (includes cts news) eqn:Hn;
      destruct c; cbn; rewrite ?Hw, ?Hv, ?Hi, ?Hn;
      split; intros H; auto; try discriminate;
      repeat (destruct H as [H | H]; try discriminate H); try contradiction.
  - cbn [filter].
    destruct (includes cts web), (includes cts video),
      (includes cts image), (includes cts news); cbn;
      repeat (constructor; [cbn; intros H;
                            repeat (destruct H as [H | H]; try discriminate H);
                            try contradiction | ]);
      constructor.
  - rewrite length_map.
    etransitivity; [apply filter_length_le | ]. simpl. lia.
  - apply Forall_forall. intros request Hin.
    apply in_map_iff in Hin. destruct Hin as (c & <- & _).
    split; [reflexivity | ]. destruct maxResults; reflexivity.
Qed.

Lemma requests_are_one_per_requested_category_witness :
  apiKeyMissing (Some "key") = false /\
  let rq := requests (search (Some "key") unavailable_backend [] "rocq" None None
                             None None
                             (Some (mkOptions None (Some [image; image; web])))) in
  In "https://google.serper.dev/images" (map endpoint rq) /\
  ~ In "https://google.serper.dev/news" (map endpoint rq) /\
  Forall (fun request => x_api_key request = Some "key" /\ num request = 10%Z) rq.
Proof.
  split; [reflexivity | ].
  destruct (requests_are_one_per_requested_category (Some "key") unavailable_backend []
              "rocq" None None None None
              (Some (mkOptions None (Some [image; image; web]))) eq_refl)
    as (Hiff & _ & _ & Hall).
  split; [apply (proj2 (Hiff image)); reflexivity | ].
  split; [ | exact Hall].
  intros Hin. apply (proj1 (Hiff news)) in Hin. discriminate Hin.
Defined.

(** ** The news reply before the web reply *)

Section NewsFirst.

Variable apiKey : option string.
Variable backend : Backend.
Variable sq : string.
Variable mr : Z.
Variable cts : list Category.

Lemma done_rank_zero (p : Pending) : is_done p = true -> rank p = 0.
Proof. destruct p; simpl; intros H; try discriminate; reflexivity. Qed.

(** A handler that has finished stays finished. *)
Lemma done_stays (query0 : string) (c x : Category) (s : Tasks * World) :
  Inv apiKey backend sq mr cts query0 s ->
  is_done (fst s x) = true ->
  is_done (fst (deliver mr c s) x) = true.
Proof.
  intros H Hd.
  apply (rank_zero_done apiKey backend sq mr cts x).
  - apply (deliver_inv apiKey backend sq mr cts query0 c s H).
  - pose proof (deliver_rank apiKey backend sq mr cts query0 c x s H) as R.
    rewrite (done_rank_zero _ Hd) in R.
    destruct (Category_eqb c x); simpl in R; lia.
Qed.

Lemma deliver_news_then_web (query0 : string) (c : Category) (s : Tasks * World) :
  includes cts web = true ->
  failed apiKey backend sq mr web = false ->
  Inv apiKey backend sq mr cts query0 s ->
  news_then_web apiKey backend sq mr cts s ->
  news_then_web apiKey backend sq mr cts (deliver mr c s).
Proof.
  intros Hact Hok H [Hnews Hweb].
  split; [now apply (done_stays query0) | ].
  rewrite (deliver_obj apiKey backend sq mr cts query0 c s H).
  destruct c.
  - destruct Hweb as [[Hw Hr] | [Hw Hr]].
    + rewrite Hw. cbn [negb andb].
      destruct (is_done (fst (deliver mr web s) web)) eqn:Hd.
      * right. split; [reflexivity | ].
        rewrite commit_results. unfold contribution. rewrite Hact.
        unfold failed in Hok.
        destruct (web_result apiKey backend sq mr); [discriminate | reflexivity].
      * left. auto.
    + rewrite Hw. cbn [negb andb]. right.
      split; [now apply (done_stays query0) | exact Hr].
  - rewrite (deliver_other mr video web) by reflexivity.
    destruct (negb (is_done (fst s video)) && is_done (fst (deliver mr video s) video));
      rewrite ?commit_results; exact Hweb.
  - rewrite (deliver_other mr image web) by reflexivity.
    destruct (negb (is_done (fst s image)) && is_done (fst (deliver mr image s) image));
      rewrite ?commit_results; exact Hweb.
  - rewrite (deliver_other mr news web) by reflexivity.
    rewrite Hnews. cbn [negb andb]. exact Hweb.
Qed.

Lemma run_news_then_web (query0 : string) (l : list Category) (s : Tasks * World) :
  includes cts web = true ->
  failed apiKey backend sq mr web = false ->
  Inv apiKey backend sq mr cts query0 s ->
  news_then_web apiKey backend sq mr cts s ->
  news_then_web apiKey backend sq mr cts (run mr l s).
Proof.
  intros Hact Hok. unfold run. revert s.
  induction l as [ | c l IH]; intros s H Hn; simpl; [exact Hn | ].
  apply IH.
  - now apply deliver_inv.
  - now apply (deliver_news_then_web query0).
Qed.

(** When the two segments of the news handler run first, the web handler's
    assignment comes last and the list ends as the web items alone. *)
Lemma run_news_first (query0 : string) (rest : list Category) :
  includes cts web = true ->
  failed apiKey backend sq mr web = false ->
  results (obj (snd (run mr ((news :: news :: rest) ++ remaining)
                         (after_calls apiKey backend sq mr cts query0)))) =
    contribution cts web (web_result apiKey backend sq mr).
Proof.
  intros Hact Hok.
  set (s0 := after_calls apiKey backend sq mr cts query0).
  pose proof (after_calls_inv apiKey backend sq mr cts query0) as H0. fold s0 in H0.
  change ((news :: news :: rest) ++ remaining)
    with ([news; news] ++ (rest ++ remaining)).
  rewrite run_app.
  change (run mr [news; news] s0) with (deliver mr news (deliver mr news s0)).
  pose proof (deliver_inv apiKey backend sq mr cts query0 news s0 H0) as H1.
  pose proof (deliver_inv apiKey backend sq mr cts query0 news _ H1) as H2.
  set (s2 := deliver mr news (deliver mr news s0)) in *.
  assert (Hweb : fst s2 web = AwaitFetch (reply apiKey backend sq mr web)).
  { unfold s2. rewrite !(deliver_other mr news web) by reflexivity.
    unfold s0. rewrite after_calls_task. now rewrite Hact. }
  assert (Hnews : is_done (fst s2 news) = true).
  { apply (rank_zero_done apiKey backend sq mr cts news); [apply H2 | ].
    pose proof (deliver_rank apiKey backend sq mr cts query0 news news s0 H0) as R1.
    pose proof (deliver_rank apiKey backend sq mr cts query0 news news _ H1) as R2.
    cbn [Category_eqb] in R1, R2.
    assert (Hmax : rank (fst s0 news) <= 2) by (destruct (fst s0 news); simpl; lia).
    fold s2 in R2. lia. }
  assert (Hstart : news_then_web apiKey backend sq mr cts s2).
  { split; [exact Hnews | ]. left.
    pose proof (inv_results _ _ _ _ _ _ _ H2) as Hr.
    rewrite Hnews, Hweb in Hr. cbn in Hr.
    rewrite Hweb. split; [reflexivity | exact Hr]. }
  pose proof (run_news_then_web query0 (rest ++ remaining) s2 Hact Hok H2 Hstart)
    as [_ Hend].
  assert (Hdone : is_done (fst (run mr (rest ++ remaining) s2) web) = true).
  { rewrite run_app.
    apply (remaining_done apiKey backend sq mr cts query0).
    now apply run_inv. }
  destruct Hend as [[Hw _] | [_ Hr]]; [congruence | exact Hr].
Qed.

End NewsFirst.

(** X16. When the race loses the news.  If the reply of the news endpoint is
    handled, fetch and body, before anything else, and the web category is
    requested and goes through, the answer's [results] is the web items
    alone and [number_of_results] is their number: every news item is
    dropped, whatever the backend returned. *)
Theorem news_dropped_whenever_news_is_answered_first
        (apiKey : option string) (backend : Backend) (rest : list Category)
        (query0 : string) (maxResults : option Z) (searchDepth : option SearchDepth)
        (includeDomains excludeDomains : option (list string))
        (options : option Options) :
  apiKeyMissing apiKey = false ->
  let mr := maxResultsOrDefault maxResults in
  let sq := searchQuery query0 includeDomains excludeDomains in
  let cts := contentTypesOf options in
  includes cts web = true ->
  failed apiKey backend sq mr web = false ->
  exists r,
    completion (search apiKey backend (news :: news :: rest) query0 maxResults
                       searchDepth includeDomains excludeDomains options) = Returns r /\
    results r = items_or_nil (web_result apiKey backend sq mr) /\
    number_of_results r = length (items_or_nil (web_result apiKey backend sq mr)).
Proof.
  intros Hkey mr sq cts Hact Hok.
  rewrite (search_final apiKey backend (news :: news :: rest) query0 maxResults
             searchDepth includeDomains excludeDomains options Hkey).
  fold mr sq cts. cbn [completion].
  eexists. split; [reflexivity | ].
  cbn [set_number_of_results results number_of_results].
  rewrite (run_news_first apiKey backend sq mr cts query0 rest Hact Hok).
  unfold contribution. rewrite Hact. auto.
Qed.

Lemma news_dropped_whenever_news_is_answered_first_witness :
  apiKeyMissing (Some "key") = false /\
  exists r,
    completion (search (Some "key") sample_backend [news; news; image; web] "rocq"
                       None None None None all_categories) = Returns r /\
    length (results r) = 2.
Proof.
  split; [reflexivity | ].
  destruct (news_dropped_whenever_news_is_answered_first (Some "key") sample_backend
              [image; web] "rocq" None None None None all_categories
              eq_refl eq_refl eq_refl) as (r & Hr & Hres & _).
  exists r. split; [exact Hr | ]. rewrite Hres. reflexivity.
Defined.

(** ** The items of the answer *)

Lemma mapIndexFrom_Forall {A B} (f : A -> nat -> Exc B) (P : B -> Prop) (l : list A) :
  (forall x k y, f x k = inr y -> P y) ->
  forall i ys, mapIndexFrom f i l = inr ys -> Forall P ys.
Proof.
  intros Hf. induction l as [ | x rest IH]; simpl; intros i ys H.
  - inversion H. constructor.
  - destruct (f x i) as [e | y] eqn:Ef; simpl in H; [discriminate | ].
    destruct (mapIndexFrom f (S i) rest) as [e | ys'] eqn:E; simpl in H; [discriminate | ].
    inversion H; subst. constructor; eauto.
Qed.

Lemma contribution_Forall {B} (f : JSON -> nat -> Exc B) (P : B -> Prop) (key : string)
      (cts : list Category) (c : Category) (o : FetchOutcome) (maxResults : Z) :
  (forall x k y, f x k = inr y -> P y) ->
  Forall P (contribution cts c
              (bind (payload o)
                    (fun data => bind (getProp data key)
                       (fun v => bind (sliceItems v maxResults)
                                      (fun items => mapIndex f items))))).
Proof.
  intros Hf. unfold contribution.
  destruct (includes cts c); [ | constructor].
  destruct (payload o) as [e | data]; simpl; [constructor | ].
  destruct (bind (getProp data key) _) as [e | out] eqn:E; simpl; [constructor | ].
  apply normalised_from_slice in E. destruct E as (v & items & _ & _ & Hm).
  now apply (mapIndexFrom_Forall f P items Hf 0).
Qed.

(** X17. The items of the answer.  In every answer, every item of [results]
    has a truthy [title] and [content]; every image has a truthy [title],
    and a [link] and a [thumbnailUrl] that are truthy or the empty string;
    no field of a video is [undefined] or [null]; and the [position] of the
    video at index [i] is [i]. *)
Theorem answer_items_are_well_formed
        (apiKey : option string) (backend : Backend) (schedule : list Category)
        (query0 : string) (maxResults : option Z) (searchDepth : option SearchDepth)
        (includeDomains excludeDomains : option (list string))
        (options : option Options) (r : SearchResults) :
  completion (search apiKey backend schedule query0 maxResults searchDepth
                     includeDomains excludeDomains options) = Returns r ->
  Forall web_item_ok (results r) /\
  Forall image_item_ok (images r) /\
  Forall video_item_ok (videos r) /\
  (forall i item, nth_error (videos r) i = Some item ->
                  SerperSearchResultItem.position item = i).
Proof.
  destruct (apiKeyMissing apiKey) eqn:Hkey.
  { unfold search. rewrite Hkey. discriminate. }
  destruct (search_spec apiKey backend schedule query0 maxResults searchDepth
              includeDomains excludeDomains options Hkey)
    as (r' & lg & Hs & Hv & Hi & Hr & _).
  rewrite Hs. cbn [completion]. intros H. inversion H; subst r'. clear H.
  set (mr := maxResultsOrDefault maxResults) in *.
  set (sq := searchQuery query0 includeDomains excludeDomains) in *.
  set (cts := contentTypesOf options) in *.
  assert (FW : Forall web_item_ok (contribution cts web (web_result apiKey backend sq mr)))
    by exact (contribution_Forall webItem web_item_ok "organic" cts web
                (reply apiKey backend sq mr web) mr webItem_ok).
  assert (FN : Forall web_item_ok (contribution cts news (news_result apiKey backend sq mr)))
    by exact (contribution_Forall newsItem web_item_ok "news" cts news
                (reply apiKey backend sq mr news) mr newsItem_ok).
  split; [ | split; [ | split]].
  - destruct Hr as [Hr | (_ & _ & Hr)]; rewrite Hr; [ | exact FW].
    apply Forall_app. split; assumption.
  - rewrite Hi.
    exact (contribution_Forall imageItem image_item_ok "images" cts image
             (reply apiKey backend sq mr image) mr imageItem_ok).
  - rewrite Hv.
    exact (contribution_Forall videoItem video_item_ok "videos" cts video
             (reply apiKey backend sq mr video) mr
             (fun x k y H => proj1 (videoItem_ok x k y H))).
  - rewrite Hv. unfold contribution, video_result.
    destruct (includes cts video); [ | intros [ | i] item H; discriminate].
    destruct (payload (reply apiKey backend sq mr video)) as [e | data]; simpl;
      [intros [ | i] item H; discriminate | ].
    destruct (videoItems data mr) as [e | out] eqn:E; simpl;
      [intros [ | i] item H; discriminate | ].
    intros i item Hn.
    apply normalised_from_slice in E. destruct E as (v & items & _ & _ & Hm).
    destruct (mapIndexFrom_nth _ _ _ _ _ _ Hm Hn) as (x & _ & Hf).
    now apply videoItem_ok in Hf.
Qed.

Lemma answer_items_are_well_formed_witness :
  exists r,
    completion (search (Some "key") sample_backend [image] "rocq" None None None None
                       all_categories) = Returns r /\
    Forall web_item_ok (results r) /\
    Forall video_item_ok (videos r).
Proof.
  destruct (search_returns (Some "key") sample_backend [image] "rocq" None None None None
              all_categories eq_refl) as [r Hr].
  exists r. split; [exact Hr | ].
  destruct (answer_items_are_well_formed (Some "key") sample_backend [image] "rocq"
              None None None None all_categories r Hr) as (Hw & _ & Hv & _).
  split; [exact Hw | exact Hv].
Defined.

(** ** The body of a failed response *)

Lemma resume_sim (c : Category) (mr : Z) (p1 p2 : Pending) (w : World) :
  pending_sim p1 p2 ->
  snd (resume c mr p1 w) = snd (resume c mr p2 w) /\
  pending_sim (fst (resume c mr p1 w)) (fst (resume c mr p2 w)).
Proof.
  intros [-> | (o1 & o2 & -> & -> & [-> | (st & j1 & j2 & -> & ->)])].
  - split; [reflexivity | now left].
  - split; [reflexivity | now left].
  - destruct c; cbn; (split; [reflexivity | now left]).
Qed.

Lemma deliver_sim (mr : Z) (c : Category) (s1 s2 : Tasks * World) :
  state_sim s1 s2 -> state_sim (deliver mr c s1) (deliver mr c s2).
Proof.
  destruct s1 as [t1 w1], s2 as [t2 w2]. intros [Hw Ht]. cbn [fst snd] in *. subst w2.
  unfold deliver.
  destruct (resume_sim c mr (t1 c) (t2 c) w1 (Ht c)) as [Hw' Hp'].
  destruct (resume c mr (t1 c) w1) as [p1 w1'], (resume c mr (t2 c) w1) as [p2 w2'].
  cbn [fst snd] in *. split; [exact Hw' | ].
  intros x. unfold update. cbn [fst]. destruct (Category_eqb c x); auto.
Qed.

Lemma run_sim (mr : Z) (l : list Category) (s1 s2 : Tasks * World) :
  state_sim s1 s2 -> state_sim (run mr l s1) (run mr l s2).
Proof.
  unfold run. revert s1 s2.
  induction l as [ | c l IH]; intros s1 s2 H; simpl; [exact H | ].
  apply IH. now apply deliver_sim.
Qed.

Lemma call_if_sim (apiKey : option string) (backend1 backend2 : Backend)
      (cts : list Category) (c : Category) (sq : string) (mr : Z)
      (s1 s2 : Tasks * World) :
  (forall request, same_up_to_failed_body (backend1 request) (backend2 request)) ->
  state_sim s1 s2 ->
  state_sim (call_if apiKey backend1 cts c sq mr s1) (call_if apiKey backend2 cts c sq mr s2).
Proof.
  intros Hb. destruct s1 as [t1 w1], s2 as [t2 w2]. intros [Hw Ht].
  cbn [fst snd] in *. subst w2.
  unfold call_if. destruct (includes cts c); [ | split; auto].
  destruct c; cbn; (split; [reflexivity | ]);
    intros x; destruct x; cbn; try apply Ht;
    right; eexists; eexists; (split; [reflexivity | ]); (split; [reflexivity | ]);
    apply Hb.
Qed.

Lemma promise_all_sim (t1 t2 : Tasks) :
  (forall x, pending_sim (t1 x) (t2 x)) -> promise_all t1 = promise_all t2.
Proof.
  intros H. unfold promise_all.
  assert (Hone : forall x rest, promise_one (t1 x) rest = promise_one (t2 x) rest).
  { intros x rest.
    destruct (H x) as [-> | (o1 & o2 & -> & -> & _)]; reflexivity. }
  now rewrite !Hone.
Qed.

(** X18. The body of a failed response is never read.  Two backends whose
    replies differ only in the bodies of responses with a status that is
    not a success give the same call: same answer, same console, same
    requests. *)
Theorem body_of_failed_response_is_never_read
        (apiKey : option string) (backend1 backend2 : Backend) (schedule : list Category)
        (query0 : string) (maxResults : option Z) (searchDepth : option SearchDepth)
        (includeDomains excludeDomains : option (list string))
        (options : option Options) :
  (forall request, same_up_to_failed_body (backend1 request) (backend2 request)) ->
  search apiKey backend1 schedule query0 maxResults searchDepth
         includeDomains excludeDomains options =
  search apiKey backend2 schedule query0 maxResults searchDepth
         includeDomains excludeDomains options.
Proof.
  intros Hb. unfold search.
  destruct (apiKeyMissing apiKey); [reflexivity | ].
  set (mr := maxResultsOrDefault maxResults).
  set (sq := searchQuery query0 includeDomains excludeDomains).
  set (cts := contentTypesOf options).
  set (s0 := (fun _ : Category => NotStarted, mkWorld (mkSearchResults [] [] [] query0 0) [] [])).
  assert (H0 : state_sim s0 s0) by (split; [reflexivity | intros x; now left]).
  pose proof (call_if_sim apiKey backend1 backend2 cts web sq mr _ _ Hb H0) as H1.
  pose proof (call_if_sim apiKey backend1 backend2 cts video sq mr _ _ Hb H1) as H2.
  pose proof (call_if_sim apiKey backend1 backend2 cts image sq mr _ _ Hb H2) as H3.
  pose proof (call_if_sim apiKey backend1 backend2 cts news sq mr _ _ Hb H3) as H4.
  pose proof (run_sim mr (schedule ++ remaining) _ _ H4) as [Hw Ht].
  destruct (run mr (schedule ++ remaining) _) as [t1 w1].
  destruct (run mr (schedule ++ remaining) _) as [t2 w2].
  cbn [fst snd] in *. subst w2.
  now rewrite (promise_all_sim t1 t2 Ht).
Qed.

Lemma body_of_failed_response_is_never_read_witness :
  (forall request,
      same_up_to_failed_body (unavailable_backend request)
                             (unavailable_backend_with_body request)) /\
  search (Some "key") unavailable_backend [news] "rocq" None None None None
         all_categories =
  search (Some "key") unavailable_backend_with_body [news] "rocq" None None None None
         all_categories.
Proof.
  assert (H : forall request,
             same_up_to_failed_body (unavailable_backend request)
                                    (unavailable_backend_with_body request)).
  { intros request. right. do 3 eexists. split; reflexivity. }
  split; [exact H | ].
  apply (body_of_failed_response_is_never_read (Some "key") unavailable_backend
           unavailable_backend_with_body [news] "rocq" None None None None
           all_categories H).
Defined.
